(** * cavy: the TestRunner (src/TestRunner.js)

    A shallow embedding of the [TestRunner] class and the properties of
    its sequencing, failure isolation and report delivery.

    The class is asynchronous JavaScript.  Its methods are embedded as
    programs over the operations they invoke on their environment (the
    host component, the test callables, the console, the clock, the
    network), with [throw] and [try]/[catch] kept as they are written.
    A program is given its meaning by [exec], which settles every
    operation in the order the runner reaches it, and by [start], which
    runs an [async] function up to its first [await] only (what a caller
    that does not await gets to see). *)

From Stdlib Require Import List String Ascii ZArith NArith Bool Arith Lia.
From Stdlib Require Decimal DecimalN DecimalString.
Import ListNotations.
Open Scope string_scope.

Set Implicit Arguments.

(** ** JavaScript values and failures *)

(** What an [await] or a call yields: a value, or a thrown error.  A
    thrown value is taken to be an [Error] object; the runner only ever
    reads its [message]. *)
Record Error : Type := mkError { message : string }.

Inductive Res (A : Type) : Type :=
| Ok (a : A)
| Fail (e : Error).
Arguments Ok {A} a.
Arguments Fail {A} e.

(** The values the constructor arguments [startDelay] and [sendReport]
    can hold. *)
Inductive JsVal : Type :=
| VUndefined
| VNull
| VBool (b : bool)
| VNum (n : Z)
| VNaN
| VStr (s : string)
| VObj.

(** ToBoolean: [if (v)] and [!v]. *)
Definition truthy (v : JsVal) : bool :=
  match v with
  | VUndefined | VNull | VNaN => false
  | VBool b => b
  | VNum n => negb (Z.eqb n 0)
  | VStr s => negb (String.eqb s "")
  | VObj => true
  end.

(** [v != undefined] (loose inequality): only [undefined] and [null] are
    loosely equal to [undefined]. *)
Definition loose_neq_undefined (v : JsVal) : bool :=
  match v with
  | VUndefined | VNull => false
  | _ => true
  end.

Definition nl : string := String (ascii_of_nat 10) EmptyString.

(** [str.match(/pat/)] for a pattern without metacharacters: does [pat]
    occur in [str]? *)
Definition matches (pat str : string) : bool :=
  match String.index 0 pat str with
  | Some _ => true
  | None => false
  end.

(** ** Data model *)

Record TestResult : Type := mkResult { msg : string; passed : bool }.

(** [(stop - start) / 1000], a number of seconds.  Dates are whole
    milliseconds, so the quotient is kept exactly, as the count of
    thousandths of a second. *)
Record Seconds : Type := mkSeconds { thousandths : Z }.

Definition div1000 (ms : Z) : Seconds := mkSeconds ms.

Record Report : Type := mkReport {
  results : list TestResult;
  errorCount : nat;
  duration : Seconds
}.

Record Request : Type := mkRequest {
  url : string;
  method : string;
  headers : list (string * string);
  body : option string
}.

(** [fetch(url)]: a GET without headers or body. *)
Definition GET (u : string) : Request := mkRequest u "GET" [] None.

(** A response is read through [response.text()], which may itself
    reject. *)
Record Response : Type := mkResponse { text : Res string }.

Inductive LogLine : Type :=
| Log (s : string)
| Warn (s : string)
| Group (s : string)
| GroupEnd.

Section Programs.

(** The host: the state of the [component] the app is wrapped in,
    together with everything the test callables act on. *)
Variable Host : Type.

(** A test body or a [beforeEach] hook, called with [this] bound to its
    scope: it acts on the host and completes or throws. *)
Definition Callable : Type := Host -> Res unit * Host.

Record TestCase : Type := mkCase { description : string; f : Callable }.

Record TestScope : Type := mkScope {
  beforeEach : option Callable;
  testCases : list TestCase
}.

(** ** Operations *)

Inductive Op : Type :=
| ClearAsync                                   (* this.component.clearAsync() *)
| ReRender                                     (* this.component.reRender() *)
| CallBeforeEach (scope : TestScope) (g : Callable)   (* scope.beforeEach.call(scope) *)
| CallTest (scope : TestScope) (test : TestCase)      (* f.call(scope) *)
| NewDate                                      (* new Date() *)
| Console (l : LogLine)                        (* console.log / warn / group / groupEnd *)
| Fetch (rq : Request)                         (* fetch(url, options) *)
| ResponseText (rs : Response)                 (* response.text() *)
| Pause (time : JsVal)                         (* this.pause(time) *)
| Push (r : TestResult)                        (* this.testResults.push(r) *)
| IncErrorCount                                (* this.errorCount += 1 *)
| GetResults                                   (* this.testResults *)
| GetErrorCount.                               (* this.errorCount *)

Definition ans (o : Op) : Type :=
  match o with
  | NewDate => Z
  | Fetch _ => Response
  | ResponseText _ => string
  | GetResults => list TestResult
  | GetErrorCount => nat
  | _ => unit
  end.

(** The operations whose promise the runner awaits; the others are
    plain synchronous calls. *)
Definition awaited (o : Op) : bool :=
  match o with
  | ClearAsync | CallBeforeEach _ _ | CallTest _ _
  | Fetch _ | ResponseText _ | Pause _ => true
  | _ => false
  end.

(** ** Programs *)

Inductive Prog (A : Type) : Type :=
| Ret (a : A)
| Throw (e : Error)
| Vis (o : Op) (k : Res (ans o) -> Prog A).
Arguments Ret {A} a.
Arguments Throw {A} e.
Arguments Vis {A} o k.

Fixpoint bind {A B : Type} (p : Prog A) (q : A -> Prog B) : Prog B :=
  match p with
  | Ret a => q a
  | Throw e => Throw e
  | Vis o k => Vis o (fun r => bind (k r) q)
  end.

(** [try { p } catch (e) { h e }] *)
Fixpoint try_catch {A : Type} (p : Prog A) (h : Error -> Prog A) : Prog A :=
  match p with
  | Ret a => Ret a
  | Throw e => h e
  | Vis o k => Vis o (fun r => try_catch (k r) h)
  end.

(** Invoking an operation: a rejected promise, or a throwing call,
    throws at the point of the [await] or call. *)
Definition perform_op (o : Op) : Prog (ans o) :=
  Vis o (fun r => match r with Ok a => Ret a | Fail e => Throw e end).

(** An [async] function that is called but not awaited runs up to its
    first [await] and hands back a promise: settled if the function
    finished (or threw) before awaiting anything, pending on the awaited
    operation otherwise. *)
Inductive Promise (A : Type) : Type :=
| Settled (r : Res A)
| Pending (o : Op) (k : Res (ans o) -> Prog A).
Arguments Settled {A} r.
Arguments Pending {A} o k.

Fixpoint start {A : Type} (p : Prog A) : Prog (Promise A) :=
  match p with
  | Ret a => Ret (Settled (Ok a))
  | Throw e => Ret (Settled (Fail e))
  | Vis o k => if awaited o then Ret (Pending o k)
               else Vis o (fun r => start (k r))
  end.

Fixpoint for_each {X : Type} (l : list X) (step : X -> Prog unit) : Prog unit :=
  match l with
  | [] => Ret tt
  | x :: l' => bind (step x) (fun _ => for_each l' step)
  end.

End Programs.

Arguments ClearAsync {Host}.
Arguments ReRender {Host}.
Arguments NewDate {Host}.
Arguments Console {Host} l.
Arguments Fetch {Host} rq.
Arguments ResponseText {Host} rs.
Arguments Pause {Host} time.
Arguments Push {Host} r.
Arguments IncErrorCount {Host}.
Arguments GetResults {Host}.
Arguments GetErrorCount {Host}.
Arguments Ret {Host A} a.
Arguments Throw {Host A} e.
Arguments Vis {Host A} o k.
Arguments Settled {Host A} r.
Arguments Pending {Host A} o k.

Declare Scope prog_scope.
Delimit Scope prog_scope with prog.
Notation "x <- p ;; q" := (bind p (fun x => q))
  (at level 61, p at next level, right associativity) : prog_scope.
Notation "p ;; q" := (bind p (fun _ => q))
  (at level 61, right associativity) : prog_scope.
Notation "'try' p 'catch' h" := (try_catch p h)
  (at level 61, p at level 61, h at level 0) : prog_scope.

(** ** The payload

    [JSON.stringify] on the one shape the runner serializes, the report
    object [{results, errorCount, duration}], and [JSON.parse] on the
    texts so produced.  Strings are quoted as ECMAScript's
    QuoteJSONString does; numbers are printed in decimal, a duration
    with at most three fractional digits. *)

Module JSON.
Import Decimal DecimalString.

Definition dquote : ascii := "034"%char.
Definition backslash : ascii := "092"%char.

Definition hex_digit (n : nat) : ascii :=
  match n with
  | 0 => "0" | 1 => "1" | 2 => "2" | 3 => "3" | 4 => "4" | 5 => "5"
  | 6 => "6" | 7 => "7" | 8 => "8" | 9 => "9" | 10 => "a" | 11 => "b"
  | 12 => "c" | 13 => "d" | 14 => "e" | _ => "f"
  end%char.

Definition hex_value (c : ascii) : option nat :=
  let n := nat_of_ascii c in
  if ((48 <=? n) && (n <=? 57))%nat then Some (n - 48)
  else if ((97 <=? n) && (n <=? 102))%nat then Some (n - 87)
  else if ((65 <=? n) && (n <=? 70))%nat then Some (n - 55)
  else None.

(** QuoteJSONString, one character at a time. *)
Definition escape_char (c : ascii) : string :=
  let n := nat_of_ascii c in
  if (n =? 34)%nat then String backslash (String dquote "")
  else if (n =? 92)%nat then String backslash (String backslash "")
  else if (n =? 8)%nat then String backslash "b"
  else if (n =? 12)%nat then String backslash "f"
  else if (n =? 10)%nat then String backslash "n"
  else if (n =? 13)%nat then String backslash "r"
  else if (n =? 9)%nat then String backslash "t"
  else if (n <? 32)%nat then
    String backslash
      (String "u" (String "0" (String "0"
        (String (hex_digit (n / 16)) (String (hex_digit (n mod 16)) "")))))
  else String c "".

Fixpoint escape (s : string) : string :=
  match s with
  | EmptyString => ""
  | String c s' => escape_char c ++ escape s'
  end.

Definition quote (s : string) : string :=
  String dquote (escape s ++ String dquote "").

Definition of_nat (n : nat) : string :=
  NilZero.string_of_uint (N.to_uint (N.of_nat n)).

Definition digit_char (d : Z) : ascii := ascii_of_nat (48 + Z.to_nat d).

(** The fractional digits of [frac] thousandths, [0 < frac < 1000],
    without trailing zeros. *)
Definition fraction (frac : Z) : string :=
  let d1 := (frac / 100)%Z in
  let d2 := (frac / 10 mod 10)%Z in
  let d3 := (frac mod 10)%Z in
  if negb (d3 =? 0)%Z then
    String (digit_char d1) (String (digit_char d2) (String (digit_char d3) ""))
  else if negb (d2 =? 0)%Z then
    String (digit_char d1) (String (digit_char d2) "")
  else String (digit_char d1) "".

Definition of_seconds (d : Seconds) : string :=
  let z := thousandths d in
  let a := Z.abs z in
  (if (z <? 0)%Z then "-" else "") ++
  NilZero.string_of_uint (N.to_uint (Z.to_N (a / 1000))) ++
  (if (a mod 1000 =? 0)%Z then "" else "." ++ fraction (a mod 1000)).

Definition of_bool (b : bool) : string := if b then "true" else "false".

Definition key (k : string) : string := quote k ++ ":".

Definition of_result (r : TestResult) : string :=
  "{" ++ key "message" ++ quote (msg r) ++ "," ++
         key "passed" ++ of_bool (passed r) ++ "}".

Fixpoint of_results_tail (rs : list TestResult) : string :=
  match rs with
  | [] => "]"
  | r :: rs' => "," ++ of_result r ++ of_results_tail rs'
  end.

Definition of_results (rs : list TestResult) : string :=
  match rs with
  | [] => "[]"
  | r :: rs' => "[" ++ of_result r ++ of_results_tail rs'
  end.

(** [JSON.stringify(report)] *)
Definition stringify (report : Report) : string :=
  "{" ++ key "results" ++ of_results (results report) ++ "," ++
         key "errorCount" ++ of_nat (errorCount report) ++ "," ++
         key "duration" ++ of_seconds (duration report) ++ "}".

(** *** Reading it back *)

(** Strip a literal from the front of the text. *)
Fixpoint expect (lit s : string) : option string :=
  match lit, s with
  | EmptyString, _ => Some s
  | String c lit', String c' s' =>
      if Ascii.eqb c c' then expect lit' s' else None
  | _, _ => None
  end.

(** The text after an opening quote, up to the closing one. *)
Fixpoint read_string (s : string) : option (string * string) :=
  match s with
  | EmptyString => None
  | String c s' =>
      if Ascii.eqb c dquote then Some ("", s')
      else if Ascii.eqb c backslash then
        match s' with
        | EmptyString => None
        | String e s'' =>
            let plain (x : ascii) :=
              match read_string s'' with
              | Some (str, rest) => Some (String x str, rest)
              | None => None
              end in
            match nat_of_ascii e with
            | 34 => plain dquote
            | 92 => plain backslash
            | 47 => plain "/"%char
            | 98 => plain "008"%char
            | 102 => plain "012"%char
            | 110 => plain "010"%char
            | 114 => plain "013"%char
            | 116 => plain "009"%char
            | 117 =>
                match s'' with
                | String h1 (String h2 (String h3 (String h4 t))) =>
                    match hex_value h1, hex_value h2, hex_value h3, hex_value h4 with
                    | Some 0, Some 0, Some a, Some b =>
                        match read_string t with
                        | Some (str, rest) =>
                            Some (String (ascii_of_nat (16 * a + b)) str, rest)
                        | None => None
                        end
                    | _, _, _, _ => None
                    end
                | _ => None
                end
            | _ => None
            end
        end
      else
        match read_string s' with
        | Some (str, rest) => Some (String c str, rest)
        | None => None
        end
  end.

Definition read_quoted (s : string) : option (string * string) :=
  match s with
  | String c s' => if Ascii.eqb c dquote then read_string s' else None
  | EmptyString => None
  end.

Definition digit_of (c : ascii) : option (uint -> uint) :=
  match nat_of_ascii c with
  | 48 => Some D0 | 49 => Some D1 | 50 => Some D2 | 51 => Some D3
  | 52 => Some D4 | 53 => Some D5 | 54 => Some D6 | 55 => Some D7
  | 56 => Some D8 | 57 => Some D9 | _ => None
  end.

(** The longest run of digits at the front of the text. *)
Fixpoint read_digits (s : string) : uint * string :=
  match s with
  | EmptyString => (Nil, s)
  | String c s' =>
      match digit_of c with
      | Some d => let (u, rest) := read_digits s' in (d u, rest)
      | None => (Nil, s)
      end
  end.

Definition read_N (s : string) : option (N * string) :=
  match read_digits s with
  | (Nil, _) => None
  | (u, rest) => Some (N.of_uint u, rest)
  end.

Definition read_nat (s : string) : option (nat * string) :=
  match read_N s with
  | Some (n, rest) => Some (N.to_nat n, rest)
  | None => None
  end.

(** One to three fractional digits, as thousandths. *)
Definition read_fraction (s : string) : option (Z * string) :=
  match read_digits s with
  | (u, rest) =>
      let v := Z.of_N (N.of_uint u) in
      match Decimal.nb_digits u with
      | 1 => Some ((v * 100)%Z, rest)
      | 2 => Some ((v * 10)%Z, rest)
      | 3 => Some (v, rest)
      | _ => None
      end
  end.

Definition read_unsigned (s : string) : option (Z * string) :=
  match read_N s with
  | Some (n, rest) =>
      match rest with
      | String "." rest' =>
          match read_fraction rest' with
          | Some (frac, rest'') => Some ((Z.of_N n * 1000 + frac)%Z, rest'')
          | None => None
          end
      | _ => Some ((Z.of_N n * 1000)%Z, rest)
      end
  | None => None
  end.

Definition read_seconds (s : string) : option (Seconds * string) :=
  match expect "-" s with
  | Some s' =>
      match read_unsigned s' with
      | Some (a, rest) => Some (mkSeconds (- a)%Z, rest)
      | None => None
      end
  | None =>
      match read_unsigned s with
      | Some (a, rest) => Some (mkSeconds a, rest)
      | None => None
      end
  end.

Definition read_bool (s : string) : option (bool * string) :=
  match expect "true" s with
  | Some rest => Some (true, rest)
  | None =>
      match expect "false" s with
      | Some rest => Some (false, rest)
      | None => None
      end
  end.

Definition read_result (s : string) : option (TestResult * string) :=
  match expect ("{" ++ key "message") s with
  | None => None
  | Some s1 =>
      match read_quoted s1 with
      | None => None
      | Some (m, s2) =>
          match expect ("," ++ key "passed") s2 with
          | None => None
          | Some s3 =>
              match read_bool s3 with
              | None => None
              | Some (p, s4) =>
                  match expect "}" s4 with
                  | None => None
                  | Some s5 => Some (mkResult m p, s5)
                  end
              end
          end
      end
  end.

(** The elements after the first, up to the closing bracket; the fuel
    bounds the number of elements. *)
Fixpoint read_results_tail (fuel : nat) (s : string)
  : option (list TestResult * string) :=
  match fuel with
  | 0 => None
  | S fuel' =>
      match s with
      | String "]" rest => Some ([], rest)
      | String "," s1 =>
          match read_result s1 with
          | None => None
          | Some (r, s2) =>
              match read_results_tail fuel' s2 with
              | None => None
              | Some (rs, rest) => Some (r :: rs, rest)
              end
          end
      | _ => None
      end
  end.

Definition read_results (s : string) : option (list TestResult * string) :=
  match s with
  | String "[" (String "]" rest) => Some ([], rest)
  | String "[" s1 =>
      match read_result s1 with
      | None => None
      | Some (r, s2) =>
          match read_results_tail (String.length s2) s2 with
          | None => None
          | Some (rs, rest) => Some (r :: rs, rest)
          end
      end
  | _ => None
  end.

(** [JSON.parse(text)], on the texts [stringify] produces. *)
Definition parse (s : string) : option Report :=
  match expect ("{" ++ key "results") s with
  | None => None
  | Some s1 =>
      match read_results s1 with
      | None => None
      | Some (rs, s2) =>
          match expect ("," ++ key "errorCount") s2 with
          | None => None
          | Some s3 =>
              match read_nat s3 with
              | None => None
              | Some (n, s4) =>
                  match expect ("," ++ key "duration") s4 with
                  | None => None
                  | Some s5 =>
                      match read_seconds s5 with
                      | None => None
                      | Some (d, s6) =>
                          match s6 with
                          | "}" => Some (mkReport rs n d)
                          | _ => None
                          end
                      end
                  end
              end
          end
      end
  end.

(** A text at which a run of digits stops, and one at which a number
    stops. *)
Definition no_digit (s : string) : Prop :=
  match s with
  | String c _ => digit_of c = None
  | EmptyString => True
  end.

Definition ends_number (s : string) : Prop :=
  match s with
  | String c _ => digit_of c = None /\ c <> "."%char
  | EmptyString => True
  end.

(** The check that a fraction of [frac] thousandths reads back. *)
Definition fraction_reads (frac : nat) : bool :=
  match read_digits (fraction (Z.of_nat frac)) with
  | (u, EmptyString) =>
      match read_fraction (fraction (Z.of_nat frac)) with
      | Some (v, EmptyString) => (v =? Z.of_nat frac)%Z
      | _ => false
      end
  | _ => false
  end.

End JSON.

(** ** A concrete setting

    A host that counts the renders since it was last cleared, a clock
    that advances by 250 ms per operation, a collector that listens and
    one that is absent, and the plans used as examples. *)

Module Example.

Definition clearAsync (h : nat) : Res unit * nat := (Ok tt, 0).
Definition reRender (h : nat) : Res unit * nat := (Ok tt, S h).

Definition Date_now (t : list (Op nat)) : Z :=
  (1000 + 250 * Z.of_nat (List.length t))%Z.

Definition Date_toString (z : Z) : string :=
  "T+" ++ JSON.of_seconds (mkSeconds z).

Definition listening (t : list (Op nat)) (rq : Request) : Res Response :=
  Ok (mkResponse (Ok (if String.eqb (method rq) "GET"
                      then "cavy-cli running" else ""))).

Definition absent (t : list (Op nat)) (rq : Request) : Res Response :=
  Fail (mkError "Network request failed").

Definition passes : Callable nat := fun h => (Ok tt, h).
Definition fails (m : string) : Callable nat := fun h => (Fail (mkError m), h).

Definition caseA : TestCase nat := mkCase "A" (fails "expected 1 to be 2").
Definition caseB : TestCase nat := mkCase "B" passes.
Definition caseC : TestCase nat := mkCase "C" passes.

Definition S1 : TestScope nat := mkScope None [caseA; caseB].
Definition S2 : TestScope nat := mkScope None [caseC].

(** A suite whose setup hook throws. *)
Definition broken : TestScope nat :=
  mkScope (Some (fails "setup failed")) [caseB; caseC].

End Example.

(** A host whose storage cannot be cleared and one that cannot
    re-render. *)

Module Faulty.

Definition clearAsync (h : nat) : Res unit * nat :=
  (Fail (mkError "storage unavailable"), h).

Definition reRender (h : nat) : Res unit * nat :=
  (Fail (mkError "cannot render"), h).

End Faulty.

(** ** The runner *)

Section Runner.

Variable Host : Type.

(** [component.clearAsync()] and [component.reRender()]. *)
Variable clearAsync : Host -> Res unit * Host.
Variable reRender : Host -> Res unit * Host.

(** The environment: the clock read by [new Date()] and the collector
    answering [fetch], both as functions of everything that happened so
    far. *)
Variable Date_now : list (Op Host) -> Z.
Variable collector : list (Op Host) -> Request -> Res Response.

(** Platform conversions used to build log lines and the payload:
    [`${date}`], [`${number}`] and [JSON.stringify]. *)
Variable Date_toString : Z -> string.
Variable Number_toString : Seconds -> string.
Variable JSON_stringify : Report -> string.

(** [JSON.parse], the inverse the collector applies to the payload. *)
Variable JSON_parse : string -> option Report.
Hypothesis JSON_roundtrip :
  forall report, JSON_parse (JSON_stringify report) = Some report.

(** The fields of a runner that never change after construction:
    [this.testSuites], [this.startDelay] and [this.shouldSendReport]
    (the constructor's [sendReport]). *)
Record TestRunner : Type := mkTestRunner {
  testSuites : list (TestScope Host);
  startDelay : JsVal;
  shouldSendReport : JsVal
}.

(** The mutable part of the runner and of its surroundings: the host
    behind [this.component], [this.testResults], [this.errorCount], and
    the operations performed so far, oldest first. *)
Record World : Type := mkWorld {
  this_component : Host;
  this_testResults : list TestResult;
  this_errorCount : nat;
  trace : list (Op Host)
}.

(** The state the constructor leaves: [this.testResults = []],
    [this.errorCount = 0], nothing performed yet. *)
Definition constructed (component : Host) : World :=
  mkWorld component [] 0 [].

(** Settling one operation. *)
Definition perform (o : Op Host) (w : World) : Res (ans o) * World :=
  let t := (trace w ++ [o])%list in
  match o as o0 return Res (ans o0) * World with
  | ClearAsync =>
      let (r, h) := clearAsync (this_component w) in
      (r, mkWorld h (this_testResults w) (this_errorCount w) t)
  | ReRender =>
      let (r, h) := reRender (this_component w) in
      (r, mkWorld h (this_testResults w) (this_errorCount w) t)
  | CallBeforeEach _ g =>
      let (r, h) := g (this_component w) in
      (r, mkWorld h (this_testResults w) (this_errorCount w) t)
  | CallTest _ test =>
      let (r, h) := f test (this_component w) in
      (r, mkWorld h (this_testResults w) (this_errorCount w) t)
  | NewDate =>
      (Ok (Date_now (trace w)),
       mkWorld (this_component w) (this_testResults w) (this_errorCount w) t)
  | Console _ =>
      (Ok tt, mkWorld (this_component w) (this_testResults w) (this_errorCount w) t)
  | Fetch rq =>
      (collector (trace w) rq,
       mkWorld (this_component w) (this_testResults w) (this_errorCount w) t)
  | ResponseText rs =>
      (text rs, mkWorld (this_component w) (this_testResults w) (this_errorCount w) t)
  | Pause _ =>
      (Ok tt, mkWorld (this_component w) (this_testResults w) (this_errorCount w) t)
  | Push r =>
      (Ok tt, mkWorld (this_component w) (this_testResults w ++ [r])%list (this_errorCount w) t)
  | IncErrorCount =>
      (Ok tt, mkWorld (this_component w) (this_testResults w) (this_errorCount w + 1) t)
  | GetResults =>
      (Ok (this_testResults w),
       mkWorld (this_component w) (this_testResults w) (this_errorCount w) t)
  | GetErrorCount =>
      (Ok (this_errorCount w),
       mkWorld (this_component w) (this_testResults w) (this_errorCount w) t)
  end.

(** Running a program to its end, every operation settling in turn. *)
Fixpoint exec {A : Type} (p : Prog Host A) (w : World) : Res A * World :=
  match p with
  | Ret a => (Ok a, w)
  | Throw e => (Fail e, w)
  | Vis o k => let (r, w') := perform o w in exec (k r) w'
  end.

Local Open Scope prog_scope.

Definition await (o : Op Host) : Prog Host (ans o) := perform_op o.
Definition call (o : Op Host) : Prog Host (ans o) := perform_op o.

Definition console_log (s : string) : Prog Host unit := call (Console (Log s)).
Definition console_warn (s : string) : Prog Host unit := call (Console (Warn s)).
Definition console_group (s : string) : Prog Host unit := call (Console (Group s)).
Definition console_groupEnd : Prog Host unit := call (Console GroupEnd).

(** [pause(time)]: a promise resolved by a timer after [time] ms. *)
Definition pause (time : JsVal) : Prog Host unit := await (Pause time).

(** [handleError(error, url)] *)
Definition handleError (error : Error) (url : string) : Prog Host unit :=
  if matches "Network request failed" (message error) then
    console_group ("Cavy test report server is not running at " ++ url) ;;
    console_log "If you are using cavy-cli, maybe it's not set up correctly or not reachable from this device?" ;;
    console_groupEnd
  else
    console_group "Error sending test results" ;;
    console_warn (message error) ;;
    console_groupEnd.

Definition report_url : string := "http://127.0.0.1:8082/report".

Definition POST_report (report : Report) : Request :=
  mkRequest report_url "POST"
            [("Content-Type", "application/json")]
            (Some (JSON_stringify report)).

(** [send(report)] *)
Definition send (report : Report) : Prog Host unit :=
  let url := report_url in
  let options := POST_report report in
  try (_ <- await (Fetch options) ;;
       console_log "Cavy test report successfully sent to cavy-cli")
  catch (fun e => handleError e url).

Definition probe_url : string := "http://127.0.0.1:8082/".

(** [reportResults(report)] *)
Definition reportResults (report : Report) : Prog Host unit :=
  let url := probe_url in
  try (response <- await (Fetch (GET url)) ;;
       text <- await (ResponseText response) ;;
       if String.eqb text "cavy-cli running" then
         send report
       else
         Throw (mkError "Unexpected response"))
  catch (fun e =>
       console_log ("Skipping sending test report to cavy-cli - " ++ message e ++ ".")).

Definition pass_mark : string := "  ✅".
Definition fail_mark : string := "  ❌".

(** [runTest(scope, test)] *)
Definition runTest (scope : TestScope Host) (test : TestCase Host) : Prog Host unit :=
  await ClearAsync ;;
  match beforeEach scope with
  | Some g => await (CallBeforeEach scope g)
  | None => Ret tt
  end ;;
  call ReRender ;;
  let description := description test in
  try (await (CallTest scope test) ;;
       let successMsg := description ++ pass_mark in
       console_log successMsg ;;
       call (Push (mkResult successMsg true)))
  catch (fun e =>
       let errorMsg := description ++ fail_mark ++ nl ++ "   " ++ message e in
       console_warn errorMsg ;;
       call (Push (mkResult errorMsg false)) ;;
       call IncErrorCount).

Definition deprecation_message : string :=
  "Deprecation warning: using the `sendReport` prop is " ++
  "deprecated. By default, Cavy now checks whether the " ++
  "cavy-cli server is running and sends a report if a " ++
  "connection is detected.".

(** The two nested loops of [runTestSuites()], lines 38 to 45. *)
Definition runScopes (suites : list (TestScope Host)) : Prog Host unit :=
  for_each suites (fun scope =>
    for_each (testCases scope) (fun test =>
      runTest scope test)).

(** [runTestSuites()], lines 34 to 56: run every case of every suite,
    then compile the report object. *)
Definition executeSuites (this : TestRunner) : Prog Host Report :=
  start <- call NewDate ;;
  console_log ("Cavy test suite started at " ++ Date_toString start ++ ".") ;;
  runScopes (testSuites this) ;;
  stop <- call NewDate ;;
  let duration := div1000 (stop - start) in
  console_log ("Cavy test suite stopped at " ++ Date_toString stop ++
               ", duration: " ++ Number_toString duration ++ " seconds.") ;;
  results <- call GetResults ;;
  errorCount <- call GetErrorCount ;;
  Ret (mkReport results errorCount duration).

(** [runTestSuites()], lines 58 to 69: the deprecated toggle, then the
    reporter. *)
Definition dispatchReport (this : TestRunner) (report : Report) : Prog Host unit :=
  if loose_neq_undefined (shouldSendReport this) then
    console_warn deprecation_message ;;
    if negb (truthy (shouldSendReport this)) then Ret tt
    else reportResults report
  else reportResults report.

(** [runTestSuites()] *)
Definition runTestSuites (this : TestRunner) : Prog Host unit :=
  report <- executeSuites this ;;
  dispatchReport this report.

(** [run()], line 27: the optional delay. *)
Definition startup (this : TestRunner) : Prog Host unit :=
  if truthy (startDelay this) then pause (startDelay this) else Ret tt.

(** [run()]: [runTestSuites()] is called and its promise dropped. *)
Definition run (this : TestRunner) : Prog Host unit :=
  startup this ;;
  _ <- start (runTestSuites this) ;;
  Ret tt.

(** Settling a promise: the awaited operation settles and the function
    runs on to its end. *)
Definition resume {A : Type} (p : Promise Host A) (w : World) : Res A * World :=
  match p with
  | Settled r => (r, w)
  | Pending o k => let (r, w') := perform o w in exec (k r) w'
  end.

(** ** What a run leaves behind *)

(** The result [runTest] pushes for a case that completes, and for one
    that throws [e]. *)
Definition pass_result (test : TestCase Host) : TestResult :=
  mkResult (description test ++ pass_mark) true.

Definition fail_result (test : TestCase Host) (e : Error) : TestResult :=
  mkResult (description test ++ fail_mark ++ nl ++ "   " ++ message e) false.

Definition result_of (c : TestScope Host * TestCase Host) (r : TestResult) : Prop :=
  r = pass_result (snd c) \/ exists e, r = fail_result (snd c) e.

(** [count(r in results where r.passed == false)] *)
Definition failures (rs : list TestResult) : nat :=
  List.length (filter (fun r => negb (passed r)) rs).

(** The (suite, case) pairs of a test plan, flattened in input order. *)
Definition flat_cases (suites : list (TestScope Host))
  : list (TestScope Host * TestCase Host) :=
  flat_map (fun scope => map (pair scope) (testCases scope)) suites.

(** [sum(len(scope.testCases) for scope in testSuites)] *)
Definition total_cases (suites : list (TestScope Host)) : nat :=
  list_sum (map (fun scope => List.length (testCases scope)) suites).

(** The setup hook of a scope, when it has one. *)
Definition hook_outcome (scope : TestScope Host) (h : Host) : Res unit * Host :=
  match beforeEach scope with
  | Some g => g h
  | None => (Ok tt, h)
  end.

(** Projections of a trace: the test bodies called and the results
    recorded, the requests issued, the console lines. *)
Inductive CaseEvent : Type :=
| Called (c : TestScope Host * TestCase Host)
| Recorded (r : TestResult).

Fixpoint case_events (t : list (Op Host)) : list CaseEvent :=
  match t with
  | [] => []
  | CallTest scope test :: t' => Called (scope, test) :: case_events t'
  | Push r :: t' => Recorded r :: case_events t'
  | _ :: t' => case_events t'
  end.

Fixpoint requests (t : list (Op Host)) : list Request :=
  match t with
  | [] => []
  | Fetch rq :: t' => rq :: requests t'
  | _ :: t' => requests t'
  end.

Fixpoint console (t : list (Op Host)) : list LogLine :=
  match t with
  | [] => []
  | Console l :: t' => l :: console t'
  | _ :: t' => console t'
  end.

(** One case after the other: each body is called, and its result
    recorded, before the next body is called. *)
Fixpoint one_by_one (cs : list (TestScope Host * TestCase Host))
         (rs : list TestResult) : list CaseEvent :=
  match cs, rs with
  | c :: cs', r :: rs' => Called c :: Recorded r :: one_by_one cs' rs'
  | _, _ => []
  end.

(** The collector's acknowledgement of a probe, and why a probe that
    is not acknowledged is not. *)
Definition acknowledged (answer : Res Response) : bool :=
  match answer with
  | Ok response =>
      match text response with
      | Ok body => String.eqb body "cavy-cli running"
      | Fail _ => false
      end
  | Fail _ => false
  end.

Definition skip_reason (answer : Res Response) : string :=
  match answer with
  | Ok response =>
      match text response with
      | Ok _ => "Unexpected response"
      | Fail e => message e
      end
  | Fail e => message e
  end.

(** A host operation or a hook that completes whatever the host state. *)
Definition never_throws (g : Host -> Res unit * Host) : Prop :=
  forall h, fst (g h) = Ok tt.

Definition hooks_complete (suites : list (TestScope Host)) : Prop :=
  forall scope g, In scope suites -> beforeEach scope = Some g -> never_throws g.

(** What running the cases [cs] adds to a world: one result per case,
    in order, nothing else recorded, no request issued. *)
Definition advanced (cs : list (TestScope Host * TestCase Host))
           (rs : list TestResult) (w w' : World) : Prop :=
  this_testResults w' = (this_testResults w ++ rs)%list /\
  this_errorCount w' = this_errorCount w + failures rs /\
  case_events (trace w') = (case_events (trace w) ++ one_by_one cs rs)%list /\
  requests (trace w') = requests (trace w) /\
  Forall2 result_of cs rs.

(** A world after further operations that touch neither the host nor
    the runner's fields. *)
Definition after (w : World) (t : list (Op Host)) : World :=
  mkWorld (this_component w) (this_testResults w) (this_errorCount w)
          (trace w ++ t)%list.

(** The world once [runTestSuites] has logged its start line, and the
    report and world once it has logged its stop line, when the loops
    took the world from [started w] to [w1]. *)
Definition started (w : World) : World :=
  after w [NewDate;
           Console (Log ("Cavy test suite started at " ++
                         Date_toString (Date_now (trace w)) ++ "."))].

Definition report_at (w w1 : World) : Report :=
  mkReport (this_testResults w1) (this_errorCount w1)
           (div1000 (Date_now (trace w1) - Date_now (trace w))).

Definition stopped (w w1 : World) : World :=
  after w1 [NewDate;
            Console (Log ("Cavy test suite stopped at " ++
                          Date_toString (Date_now (trace w1)) ++
                          ", duration: " ++
                          Number_toString (duration (report_at w w1)) ++
                          " seconds."));
            GetResults; GetErrorCount].

(** The console lines of [handleError(error, url)]. *)
Definition handleError_lines (error : Error) (url : string) : list LogLine :=
  if matches "Network request failed" (message error) then
    [Group ("Cavy test report server is not running at " ++ url);
     Log "If you are using cavy-cli, maybe it's not set up correctly or not reachable from this device?";
     GroupEnd]
  else
    [Group "Error sending test results"; Warn (message error); GroupEnd].

Definition skip_notice (answer : Res Response) : LogLine :=
  Log ("Skipping sending test report to cavy-cli - " ++ skip_reason answer ++ ".").

(** The deprecated toggle: explicitly given and falsy suppresses the
    reporter; explicitly given at all logs the deprecation warning
    before anything else. *)
Definition suppressed (this : TestRunner) : bool :=
  loose_neq_undefined (shouldSendReport this) &&
  negb (truthy (shouldSendReport this)).

Definition warned (this : TestRunner) (w : World) : World :=
  if loose_neq_undefined (shouldSendReport this)
  then after w [Console (Warn deprecation_message)]
  else w.

(** The reading of the specification under which a failing setup hook
    counts as a failure of the case: a failed result with the case's
    description is appended, the error is counted, and [runTest]
    returns so that the run goes on. *)
Definition hook_failure_recorded (scope : TestScope Host)
           (test : TestCase Host) (w : World) : Prop :=
  forall g h1 e h2,
    beforeEach scope = Some g ->
    clearAsync (this_component w) = (Ok tt, h1) ->
    g h1 = (Fail e, h2) ->
    exists w',
      exec (runTest scope test) w = (Ok tt, w') /\
      this_testResults w' = (this_testResults w ++ [fail_result test e])%list /\
      this_errorCount w' = this_errorCount w + 1.

(** ** The order of actions of a case *)

(** The call of the setup hook of a scope, when it has one. *)
Definition hook_calls (scope : TestScope Host) : list (Op Host) :=
  match beforeEach scope with
  | Some g => [CallBeforeEach scope g]
  | None => []
  end.

(** The order of actions of [runTest]: clear, hook, re-render, test. *)
Definition protocol (c : TestScope Host * TestCase Host) : list (Op Host) :=
  (ClearAsync :: hook_calls (fst c) ++ [ReRender; CallTest (fst c) (snd c)])%list.

(** How [runTest] records a result: the console line, the push and,
    for a failure, the increment. *)
Definition record_of (r : TestResult) : list (Op Host) :=
  if passed r then [Console (Log (msg r)); Push r]
  else [Console (Warn (msg r)); Push r; IncErrorCount].

(** [pat] occurs somewhere in [str]. *)
Definition occurs_in (pat str : string) : Prop :=
  exists pre post, str = pre ++ pat ++ post.

(** ** Executing programs *)

Lemma exec_bind A B (p : Prog Host A) (q : A -> Prog Host B) w :
  exec (bind p q) w =
  match exec p w with
  | (Ok a, w') => exec (q a) w'
  | (Fail e, w') => (Fail e, w')
  end.
Proof.
  revert w; induction p as [a|e|o k IH]; intro w; simpl; auto.
  destruct (perform o w) as [r w']; apply IH.
Qed.

Lemma exec_try_catch A (p : Prog Host A) (h : Error -> Prog Host A) w :
  exec (try_catch p h) w =
  match exec p w with
  | (Ok a, w') => (Ok a, w')
  | (Fail e, w') => exec (h e) w'
  end.
Proof.
  revert w; induction p as [a|e|o k IH]; intro w; simpl; auto.
  destruct (perform o w) as [r w']; apply IH.
Qed.

Lemma exec_op (o : Op Host) w : exec (perform_op o) w = perform o w.
Proof.
  unfold perform_op; simpl.
  destruct (perform o w) as [[a|e] w']; reflexivity.
Qed.

Lemma exec_for_each_app X (l1 l2 : list X) (step : X -> Prog Host unit) w :
  exec (for_each (l1 ++ l2) step) w =
  match exec (for_each l1 step) w with
  | (Ok _, w') => exec (for_each l2 step) w'
  | (Fail e, w') => (Fail e, w')
  end.
Proof.
  revert w; induction l1 as [|x l1 IH]; intro w; simpl; auto.
  rewrite !exec_bind.
  destruct (exec (step x) w) as [[[]|e] w']; auto.
Qed.

Lemma for_each_map X Y (g : X -> Y) (l : list X) (step : Y -> Prog Host unit) :
  for_each (map g l) step = for_each l (fun x => step (g x)).
Proof.
  induction l as [|x l IH]; simpl; auto.
  rewrite IH; reflexivity.
Qed.

(** The nested loops visit the flattened plan. *)
Lemma exec_runScopes suites w :
  exec (runScopes suites) w =
  exec (for_each (flat_cases suites) (fun c => runTest (fst c) (snd c))) w.
Proof.
  unfold runScopes.
  revert w; induction suites as [|scope suites IH]; intro w; simpl; auto.
  rewrite exec_bind, exec_for_each_app, for_each_map; simpl.
  destruct (exec (for_each (testCases scope) _) w) as [[[]|e] w']; auto.
Qed.

(** A promise that is started and then settled runs as the function
    does when every operation settles in turn. *)
Lemma start_resume A (p : Prog Host A) w :
  exists pr w1, exec (start p) w = (Ok pr, w1) /\ resume pr w1 = exec p w.
Proof.
  revert w; induction p as [a|e|o k IH]; intro w; simpl.
  - eexists _, _; split; reflexivity.
  - eexists _, _; split; reflexivity.
  - destruct (awaited o) eqn:Ho; simpl.
    + eexists _, _; split; reflexivity.
    + destruct (perform o w) as [r w']. apply IH.
Qed.

(** ** Traces *)

Lemma case_events_app (t1 t2 : list (Op Host)) :
  case_events (t1 ++ t2) = (case_events t1 ++ case_events t2)%list.
Proof.
  induction t1 as [|o t1 IH]; simpl; auto.
  destruct o; simpl; rewrite ?IH; reflexivity.
Qed.

Lemma requests_app (t1 t2 : list (Op Host)) :
  requests (t1 ++ t2) = (requests t1 ++ requests t2)%list.
Proof.
  induction t1 as [|o t1 IH]; simpl; auto.
  destruct o; simpl; rewrite ?IH; reflexivity.
Qed.

Lemma console_app (t1 t2 : list (Op Host)) :
  console (t1 ++ t2) = (console t1 ++ console t2)%list.
Proof.
  induction t1 as [|o t1 IH]; simpl; auto.
  destruct o; simpl; rewrite ?IH; reflexivity.
Qed.

Lemma requests_console (ls : list LogLine) :
  requests (map (@Console Host) ls) = [].
Proof. induction ls; simpl; auto. Qed.

Lemma failures_app (rs1 rs2 : list TestResult) :
  failures (rs1 ++ rs2) = failures rs1 + failures rs2.
Proof.
  unfold failures. rewrite filter_app, length_app. reflexivity.
Qed.

Lemma one_by_one_app cs1 rs1 cs2 rs2 :
  List.length cs1 = List.length rs1 ->
  one_by_one (cs1 ++ cs2) (rs1 ++ rs2) =
  (one_by_one cs1 rs1 ++ one_by_one cs2 rs2)%list.
Proof.
  revert rs1; induction cs1 as [|c cs1 IH]; intros [|r rs1] H;
    simpl in *; try discriminate; auto.
  rewrite IH by lia. reflexivity.
Qed.

(** ** One case *)

Lemma advanced_refl w : advanced [] [] w w.
Proof.
  unfold advanced; simpl. rewrite !app_nil_r, Nat.add_0_r. auto.
Qed.

Lemma advanced_trans cs1 rs1 cs2 rs2 w w1 w2 :
  advanced cs1 rs1 w w1 -> advanced cs2 rs2 w1 w2 ->
  advanced (cs1 ++ cs2) (rs1 ++ rs2) w w2.
Proof.
  intros (R1 & E1 & T1 & Q1 & F1) (R2 & E2 & T2 & Q2 & F2).
  unfold advanced.
  rewrite R2, R1, E2, E1, T2, T1, Q2, Q1, failures_app.
  rewrite one_by_one_app by (eapply Forall2_length; eauto).
  rewrite <- !app_assoc. repeat split; auto; try lia.
  apply Forall2_app; auto.
Qed.

Ltac world_facts :=
  unfold advanced, failures; simpl;
  rewrite ?case_events_app, ?requests_app; simpl;
  rewrite <- ?app_assoc; simpl;
  rewrite ?app_nil_r, ?Nat.add_0_r.

(** When the host clears, the hook (if any) completes and the host
    re-renders, the body is called and its outcome recorded. *)
Lemma runTest_body scope test w h1 h2 h3 :
  clearAsync (this_component w) = (Ok tt, h1) ->
  hook_outcome scope h1 = (Ok tt, h2) ->
  reRender h2 = (Ok tt, h3) ->
  exists w',
    exec (runTest scope test) w = (Ok tt, w') /\
    this_component w' = snd (f test h3) /\
    advanced [(scope, test)]
             [match fst (f test h3) with
              | Ok _ => pass_result test
              | Fail e => fail_result test e
              end] w w'.
Proof.
  intros Hc Hh Hr. unfold runTest, hook_outcome in *.
  unfold await, call, console_log, console_warn, perform_op.
  destruct (beforeEach scope) as [g|]; simpl; rewrite Hc; simpl.
  - rewrite Hh; simpl. rewrite Hr; simpl.
    destruct (f test h3) as [[[]|e] h4]; simpl;
      (eexists; split; [reflexivity|split; [reflexivity|]]);
      world_facts; repeat split; auto;
      (constructor; [unfold result_of; simpl; eauto|constructor]).
  - inversion Hh; subst h2. rewrite Hr; simpl.
    destruct (f test h3) as [[[]|e] h4]; simpl;
      (eexists; split; [reflexivity|split; [reflexivity|]]);
      world_facts; repeat split; auto;
      (constructor; [unfold result_of; simpl; eauto|constructor]).
Qed.

(** When one of them throws instead, [runTest] throws the same error:
    the body is not called and nothing is recorded. *)
Lemma runTest_aborts scope test w :
  match clearAsync (this_component w) with
  | (Fail e, _) => exists w', exec (runTest scope test) w = (Fail e, w') /\ advanced [] [] w w'
  | (Ok _, h1) =>
      match hook_outcome scope h1 with
      | (Fail e, _) => exists w', exec (runTest scope test) w = (Fail e, w') /\ advanced [] [] w w'
      | (Ok _, h2) =>
          match reRender h2 with
          | (Fail e, _) => exists w', exec (runTest scope test) w = (Fail e, w') /\ advanced [] [] w w'
          | (Ok _, _) => True
          end
      end
  end.
Proof.
  unfold runTest, hook_outcome.
  unfold await, call, console_log, console_warn, perform_op.
  destruct (clearAsync (this_component w)) as [[[]|e1] h1] eqn:Hc.
  2:{ destruct (beforeEach scope); simpl; rewrite Hc; simpl;
      eexists; (split; [reflexivity|]); world_facts; auto. }
  destruct (beforeEach scope) as [g|]; simpl.
  - destruct (g h1) as [[[]|e2] h2] eqn:Hg.
    2:{ rewrite Hc; simpl. rewrite Hg; simpl.
        eexists; (split; [reflexivity|]); world_facts; auto. }
    destruct (reRender h2) as [[[]|e3] h3] eqn:Hr; auto.
    rewrite Hc; simpl. rewrite Hg; simpl. rewrite Hr; simpl.
    eexists; (split; [reflexivity|]); world_facts; auto.
  - destruct (reRender h1) as [[[]|e3] h3] eqn:Hr; auto.
    rewrite Hc; simpl. rewrite Hr; simpl.
    eexists; (split; [reflexivity|]); world_facts; auto.
Qed.

Lemma runTest_outcome scope test w :
  match exec (runTest scope test) w with
  | (Ok _, w') => exists r, advanced [(scope, test)] [r] w w'
  | (Fail _, w') => advanced [] [] w w'
  end.
Proof.
  pose proof (runTest_aborts scope test w) as Ha.
  destruct (clearAsync (this_component w)) as [[[]|e1] h1] eqn:Hc.
  2:{ destruct Ha as (w' & -> & Hw); auto. }
  destruct (hook_outcome scope h1) as [[[]|e2] h2] eqn:Hh.
  2:{ destruct Ha as (w' & -> & Hw); auto. }
  destruct (reRender h2) as [[[]|e3] h3] eqn:Hr.
  2:{ destruct Ha as (w' & -> & Hw); auto. }
  destruct (runTest_body scope test w Hc Hh Hr) as (w' & -> & _ & Hw).
  eauto.
Qed.

(** ** All cases *)

Lemma for_each_runTest cs w :
  match exec (for_each cs (fun c => runTest (fst c) (snd c))) w with
  | (Ok _, w') => exists rs, advanced cs rs w w'
  | (Fail _, w') =>
      exists done rest rs, cs = (done ++ rest)%list /\ rest <> [] /\
                           advanced done rs w w'
  end.
Proof.
  revert w; induction cs as [|[scope test] cs IH]; intro w;
    cbn [for_each exec fst snd].
  - exists []. apply advanced_refl.
  - rewrite exec_bind.
    pose proof (runTest_outcome scope test w) as H1.
    destruct (exec (runTest scope test) w) as [[[]|e] w1].
    + destruct H1 as (r & H1). specialize (IH w1).
      destruct (exec (for_each cs _) w1) as [[[]|e] w2].
      * destruct IH as (rs & IH). exists (r :: rs).
        apply (advanced_trans H1 IH).
      * destruct IH as (done & rest & rs & -> & Hne & IH).
        exists ((scope, test) :: done), rest, (r :: rs).
        split; [reflexivity|split; [assumption|]].
        apply (advanced_trans H1 IH).
    + exists [], ((scope, test) :: cs), [].
      split; [reflexivity|split; [discriminate|assumption]].
Qed.

Lemma after_after w t1 t2 : after (after w t1) t2 = after w (t1 ++ t2).
Proof. unfold after; simpl. rewrite app_assoc. reflexivity. Qed.

Lemma after_nil w : after w [] = w.
Proof. destruct w; unfold after; simpl. rewrite app_nil_r. reflexivity. Qed.

Lemma exec_executeSuites this w :
  exec (executeSuites this) w =
  match exec (for_each (flat_cases (testSuites this))
                       (fun c => runTest (fst c) (snd c))) (started w) with
  | (Ok _, w1) => (Ok (report_at w w1), stopped w w1)
  | (Fail e, w1) => (Fail e, w1)
  end.
Proof.
  unfold executeSuites, console_log, call.
  rewrite exec_bind, exec_op. cbn [perform].
  rewrite exec_bind, (exec_op (Console _)). cbn [perform].
  rewrite exec_bind, exec_runScopes.
  unfold started, after. cbn [trace this_component this_testResults this_errorCount].
  rewrite <- app_assoc. cbn [app].
  match goal with |- context [exec (for_each ?cs ?st) ?w0] =>
    destruct (exec (for_each cs st) w0) as [[[]|e] w1] end; [|reflexivity].
  simpl. unfold stopped, report_at, after; simpl.
  rewrite <- !app_assoc. reflexivity.
Qed.

Lemma advanced_after w t :
  case_events t = [] -> requests t = [] -> advanced [] [] w (after w t).
Proof.
  intros Hc Hq. unfold advanced, after; simpl.
  rewrite case_events_app, requests_app, Hc, Hq, !app_nil_r, Nat.add_0_r.
  auto.
Qed.

Lemma executeSuites_outcome this w :
  match exec (executeSuites this) w with
  | (Ok report, w') =>
      exists rs, advanced (flat_cases (testSuites this)) rs w w' /\
                 results report = this_testResults w' /\
                 errorCount report = this_errorCount w'
  | (Fail _, w') =>
      exists done rest rs,
        flat_cases (testSuites this) = (done ++ rest)%list /\ rest <> [] /\
        advanced done rs w w'
  end.
Proof.
  rewrite exec_executeSuites.
  assert (S0 : advanced [] [] w (started w))
    by (apply advanced_after; reflexivity).
  match goal with |- context [exec (for_each ?cs ?st) ?w0] =>
    pose proof (for_each_runTest cs w0) as H;
    destruct (exec (for_each cs st) w0) as [[[]|e] w1] end.
  - destruct H as (rs & H). exists rs. split; [|split; reflexivity].
    assert (S1 : advanced [] [] w1 (stopped w w1))
      by (apply advanced_after; reflexivity).
    pose proof (advanced_trans (advanced_trans S0 H) S1) as G.
    simpl in G. rewrite !app_nil_r in G. exact G.
  - destruct H as (done & rest & rs & Hcs & Hne & H).
    exists done, rest, rs. split; [exact Hcs|split; [exact Hne|]].
    apply (advanced_trans S0 H).
Qed.

Lemma advanced_constructed cs rs component w' :
  advanced cs rs (constructed component) w' ->
  this_testResults w' = rs /\ this_errorCount w' = failures rs /\
  case_events (trace w') = one_by_one cs rs /\ requests (trace w') = [] /\
  Forall2 result_of cs rs.
Proof.
  intros (R & E & T & Q & F). simpl in *. auto.
Qed.

Lemma length_flat_cases suites :
  List.length (flat_cases suites) = total_cases suites.
Proof.
  unfold flat_cases, total_cases.
  induction suites as [|scope suites IH]; simpl; auto.
  rewrite length_app, length_map, IH. reflexivity.
Qed.

(** When neither the host nor a hook throws, every case runs. *)
Lemma for_each_runTest_completes suites :
  never_throws clearAsync -> never_throws reRender -> hooks_complete suites ->
  forall w, exists w',
    exec (for_each (flat_cases suites) (fun c => runTest (fst c) (snd c))) w
    = (Ok tt, w').
Proof.
  intros Hc Hr Hh.
  assert (Hin : forall c, In c (flat_cases suites) -> In (fst c) suites).
  { intros [scope test] H. apply in_flat_map in H.
    destruct H as (s & Hs & H). apply in_map_iff in H.
    destruct H as (t & Heq & _). inversion Heq; subst. exact Hs. }
  induction (flat_cases suites) as [|[scope test] cs IH]; intro w;
    cbn [for_each exec fst snd].
  - eauto.
  - rewrite exec_bind.
    assert (H1 : exists h1, clearAsync (this_component w) = (Ok tt, h1)).
    { specialize (Hc (this_component w)).
      destruct (clearAsync (this_component w)); simpl in Hc; subst; eauto. }
    destruct H1 as (h1 & H1).
    assert (H2 : exists h2, hook_outcome scope h1 = (Ok tt, h2)).
    { unfold hook_outcome. destruct (beforeEach scope) as [g|] eqn:Hg; eauto.
      assert (Hs : In scope suites) by (apply (Hin (scope, test)); left; auto).
      specialize (Hh scope g Hs Hg h1).
      destruct (g h1); simpl in Hh; subst; eauto. }
    destruct H2 as (h2 & H2).
    assert (H3 : exists h3, reRender h2 = (Ok tt, h3)).
    { specialize (Hr h2). destruct (reRender h2); simpl in Hr; subst; eauto. }
    destruct H3 as (h3 & H3).
    destruct (runTest_body scope test w H1 H2 H3) as (w1 & -> & _).
    apply IH. intros c Hc'. apply Hin. right; exact Hc'.
Qed.

Lemma executeSuites_completes this :
  never_throws clearAsync -> never_throws reRender ->
  hooks_complete (testSuites this) ->
  forall w, exists report w', exec (executeSuites this) w = (Ok report, w').
Proof.
  intros Hc Hr Hh w.
  unfold executeSuites, console_log, call.
  rewrite exec_bind, exec_op. cbn [perform].
  rewrite exec_bind, (exec_op (Console _)). cbn [perform].
  rewrite exec_bind, exec_runScopes.
  match goal with |- context [exec (for_each ?cs ?st) ?w0] =>
    destruct (for_each_runTest_completes Hc Hr Hh w0) as (w1 & ->) end.
  simpl. eauto.
Qed.

(** ** The report *)

(** C3: the [errorCount] of the compiled report is the number of
    entries of its [results] with [passed == false].  The runner keeps
    the two in step: it holds for the report of every run that starts
    with them in step, as the constructor leaves them. *)
Theorem errorCount_counts_failures this w report w' :
  this_errorCount w = failures (this_testResults w) ->
  exec (executeSuites this) w = (Ok report, w') ->
  errorCount report = failures (results report).
Proof.
  intros I H. pose proof (executeSuites_outcome this w) as O.
  rewrite H in O. destruct O as (rs & (R & E & _) & -> & ->).
  rewrite R, E, I, failures_app. reflexivity.
Qed.

(** C4: for a runner as its constructor leaves it, the [results] of
    the compiled report hold one entry per test case of the plan,
    however many pass or fail; and the report is compiled whenever
    neither the host nor a setup hook throws. *)
Theorem results_length_total this component :
  (forall report w',
      exec (executeSuites this) (constructed component) = (Ok report, w') ->
      List.length (results report) = total_cases (testSuites this)) /\
  (never_throws clearAsync -> never_throws reRender ->
   hooks_complete (testSuites this) ->
   exists report w',
     exec (executeSuites this) (constructed component) = (Ok report, w') /\
     List.length (results report) = total_cases (testSuites this)).
Proof.
  assert (G : forall report w',
      exec (executeSuites this) (constructed component) = (Ok report, w') ->
      List.length (results report) = total_cases (testSuites this)).
  { intros report w' H.
    pose proof (executeSuites_outcome this (constructed component)) as O.
    rewrite H in O. destruct O as (rs & A & -> & _).
    apply advanced_constructed in A. destruct A as (-> & _ & _ & _ & F).
    rewrite <- (Forall2_length F). apply length_flat_cases. }
  split; [exact G|].
  intros Hc Hr Hh.
  destruct (executeSuites_completes this Hc Hr Hh (constructed component))
    as (report & w' & H).
  exists report, w'. split; [exact H|]. apply (G report w' H).
Qed.

(** C5: for a runner as its constructor leaves it, the results are
    those of the (suite, case) pairs in flattened input order, one for
    one, and the trace shows each body called, and its result recorded,
    before the next body is called: suites in input order, cases in
    input order within each, none overlapping the next. *)
Theorem results_in_input_order this component report w' :
  exec (executeSuites this) (constructed component) = (Ok report, w') ->
  Forall2 result_of (flat_cases (testSuites this)) (results report) /\
  case_events (trace w') =
    one_by_one (flat_cases (testSuites this)) (results report).
Proof.
  intro H. pose proof (executeSuites_outcome this (constructed component)) as O.
  rewrite H in O. destruct O as (rs & A & -> & _).
  apply advanced_constructed in A. destruct A as (-> & _ & T & _ & F). auto.
Qed.

(** ** Failures *)





(** C2, as the code has it: the setup hook runs outside the [try]
    block.  When it throws, [runTest] throws the same error: the body
    is not called, no result is appended and [errorCount] is
    unchanged.  The error leaves the loops and [runTestSuites]: no
    later case runs and no report is compiled or sent. *)
Theorem hook_failure_propagates scope g test w h1 e h2 :
  beforeEach scope = Some g ->
  clearAsync (this_component w) = (Ok tt, h1) ->
  g h1 = (Fail e, h2) ->
  let w' := mkWorld h2 (this_testResults w) (this_errorCount w)
                    (trace w ++ [ClearAsync; CallBeforeEach scope g])%list in
  exec (runTest scope test) w = (Fail e, w') /\
  (forall tests later,
      exec (for_each (test :: tests) (fun t => runTest scope t) ;;
            runScopes later) w = (Fail e, w')) /\
  (forall this w0 done rest,
      flat_cases (testSuites this) = (done ++ (scope, test) :: rest)%list ->
      exec (for_each done (fun c => runTest (fst c) (snd c))) (started w0)
      = (Ok tt, w) ->
      exec (runTestSuites this) w0 = (Fail e, w')).
Proof.
  intros Hg Hc Hh w'.
  assert (E : exec (runTest scope test) w = (Fail e, w')).
  { unfold runTest, await, call, perform_op. rewrite Hg. simpl.
    rewrite Hc. simpl. rewrite Hh. simpl.
    subst w'. rewrite <- app_assoc. reflexivity. }
  split; [exact E|]. split.
  - intros tests later. cbn [for_each]. rewrite !exec_bind, E. reflexivity.
  - intros this w0 done rest Hcs Hdone.
    unfold runTestSuites. rewrite exec_bind, exec_executeSuites, Hcs.
    rewrite exec_for_each_app, Hdone.
    cbn [for_each fst snd]. rewrite exec_bind, E. reflexivity.
Qed.

(** ** The reporter *)

Lemma exec_handleError error url w :
  exec (handleError error url) w =
  (Ok tt, after w (map Console (handleError_lines error url))).
Proof.
  unfold handleError, handleError_lines, after.
  destruct (matches _ (message error)); simpl;
    rewrite <- !app_assoc; reflexivity.
Qed.

Lemma exec_send report w :
  exec (send report) w =
  match collector (trace w) (POST_report report) with
  | Ok _ =>
      (Ok tt, after w [Fetch (POST_report report);
                       Console (Log "Cavy test report successfully sent to cavy-cli")])
  | Fail e =>
      (Ok tt, after w (Fetch (POST_report report) ::
                       map Console (handleError_lines e report_url)))
  end.
Proof.
  unfold send. rewrite exec_try_catch, exec_bind.
  unfold await. rewrite (exec_op (Fetch _)). cbn [perform].
  destruct (collector (trace w) (POST_report report)) as [response|e].
  - unfold after; simpl. rewrite <- app_assoc. reflexivity.
  - rewrite exec_handleError. unfold after; simpl.
    rewrite <- app_assoc. reflexivity.
Qed.

Lemma exec_reportResults report w :
  exec (reportResults report) w =
  let answer := collector (trace w) (GET probe_url) in
  match answer with
  | Fail _ =>
      (Ok tt, after w [Fetch (GET probe_url); Console (skip_notice answer)])
  | Ok response =>
      if acknowledged answer
      then exec (send report)
                (after w [Fetch (GET probe_url); ResponseText response])
      else (Ok tt, after w [Fetch (GET probe_url); ResponseText response;
                            Console (skip_notice answer)])
  end.
Proof.
  unfold reportResults. rewrite exec_try_catch, exec_bind.
  unfold await. rewrite (exec_op (Fetch _)). cbn [perform].
  cbv zeta. unfold skip_notice.
  destruct (collector (trace w) (GET probe_url)) as [response|e] eqn:Ha.
  - rewrite exec_bind, (exec_op (ResponseText _)). cbn [perform].
    cbn [acknowledged skip_reason].
    destruct (text response) as [body|e] eqn:Ht.
    + cbn [trace this_component this_testResults this_errorCount].
      destruct (String.eqb body "cavy-cli running").
      * rewrite !exec_send. unfold after; simpl. rewrite <- !app_assoc. simpl.
        destruct (collector _ (POST_report report)); reflexivity.
      * unfold after; simpl. rewrite <- !app_assoc. reflexivity.
    + unfold after; simpl. rewrite <- !app_assoc. reflexivity.
  - unfold after; simpl. rewrite <- !app_assoc. reflexivity.
Qed.

Lemma acknowledged_exactly answer :
  acknowledged answer = true <->
  exists response, answer = Ok response /\ text response = Ok "cavy-cli running".
Proof.
  unfold acknowledged. split.
  - destruct answer as [response|e]; try discriminate.
    destruct (text response) as [body|e] eqn:Ht; try discriminate.
    intro H. apply String.eqb_eq in H. subst body. eauto.
  - intros (response & -> & ->). reflexivity.
Qed.

Lemma exec_dispatchReport this report w :
  exec (dispatchReport this report) w =
  if suppressed this then (Ok tt, warned this w)
  else exec (reportResults report) (warned this w).
Proof.
  unfold dispatchReport, suppressed, warned.
  destruct (loose_neq_undefined (shouldSendReport this)); cbn [andb];
    [|reflexivity].
  unfold console_warn, call.
  rewrite exec_bind, (exec_op (Console _)). cbn [perform].
  destruct (truthy (shouldSendReport this)); reflexivity.
Qed.

Lemma exec_runTestSuites this w :
  exec (runTestSuites this) w =
  match exec (executeSuites this) w with
  | (Ok report, w1) =>
      if suppressed this then (Ok tt, warned this w1)
      else exec (reportResults report) (warned this w1)
  | (Fail e, w1) => (Fail e, w1)
  end.
Proof.
  unfold runTestSuites. rewrite exec_bind.
  destruct (exec (executeSuites this) w) as [[report|e] w1]; auto.
  apply exec_dispatchReport.
Qed.

Lemma executeSuites_requests this w :
  requests (trace (snd (exec (executeSuites this) w))) = requests (trace w).
Proof.
  pose proof (executeSuites_outcome this w) as O.
  destruct (exec (executeSuites this) w) as [[report|e] w1]; simpl.
  - destruct O as (rs & (_ & _ & _ & Q & _) & _). exact Q.
  - destruct O as (done & rest & rs & _ & _ & (_ & _ & _ & Q & _)). exact Q.
Qed.

(** C6: the reporter first issues a GET to the collector's address.
    It goes on to the delivery POST exactly when the response body is
    the string [cavy-cli running]; on any other body, and on any
    failure of the probe, nothing more is requested, one notice with
    the reason is logged, and in every case the call returns normally. *)
Theorem probe_decides_delivery report w :
  let answer := collector (trace w) (GET probe_url) in
  exists t,
    exec (reportResults report) w = (Ok tt, after w t) /\
    hd_error t = Some (Fetch (GET probe_url)) /\
    (acknowledged answer = true <->
     exists response,
       answer = Ok response /\ text response = Ok "cavy-cli running") /\
    if acknowledged answer
    then requests t = [GET probe_url; POST_report report]
    else requests t = [GET probe_url] /\ console t = [skip_notice answer].
Proof.
  intro answer. pose proof (acknowledged_exactly answer) as Hack.
  rewrite exec_reportResults. cbv zeta.
  change (collector (trace w) (GET probe_url)) with answer.
  clearbody answer. destruct answer as [response|e].
  - destruct (acknowledged (Ok response)) eqn:Hk.
    + rewrite exec_send. cbn [after trace].
      destruct (collector _ (POST_report report)) as [r|e];
        rewrite after_after; eexists; (split; [reflexivity|]);
        (split; [reflexivity|]); (split; [exact Hack|]); simpl; auto.
      destruct (handleError_lines e report_url) as [|l1 [|l2 [|l3 [|l4 ls]]]] eqn:Hl;
        unfold handleError_lines in Hl;
        destruct (matches _ (message e)); try discriminate; reflexivity.
    + eexists; (split; [reflexivity|]); (split; [reflexivity|]);
        (split; [exact Hack|]); simpl; auto.
  - simpl. eexists; (split; [reflexivity|]); (split; [reflexivity|]);
      (split; [exact Hack|]); simpl; auto.
Qed.

Lemma reportResults_probes report w :
  exists t, exec (reportResults report) w =
            (Ok tt, after w (Fetch (GET probe_url) :: t)).
Proof.
  rewrite exec_reportResults. cbv zeta.
  destruct (collector (trace w) (GET probe_url)) as [response|e].
  - destruct (acknowledged (Ok response)).
    + rewrite exec_send. cbn [after trace].
      destruct (collector _ (POST_report report));
        rewrite after_after; eexists; reflexivity.
    + eexists; reflexivity.
  - eexists; reflexivity.
Qed.

Lemma suppressed_requests this w :
  suppressed this = true ->
  requests (trace (snd (exec (runTestSuites this) w))) = requests (trace w).
Proof.
  intro Hs. rewrite exec_runTestSuites, Hs.
  pose proof (executeSuites_requests this w) as Q.
  destruct (exec (executeSuites this) w) as [[report|e] w1];
    simpl in *; auto.
  unfold warned, suppressed in *.
  destruct (loose_neq_undefined (shouldSendReport this)); try discriminate.
  simpl. rewrite requests_app, Q. simpl. apply app_nil_r.
Qed.

(** C7: with the legacy toggle explicitly [false], the deprecation
    warning is logged once the suites are done and the run ends there:
    no request, probe or delivery, is ever issued, whatever the
    collector would answer.  With the toggle not provided, nothing is
    logged about it and the reporter is always invoked; it opens with
    the probe. *)
Theorem toggle_false_suppresses_reporting suites delay report w :
  let this := mkTestRunner suites delay (VBool false) in
  let unset := mkTestRunner suites delay VUndefined in
  exec (dispatchReport this report) w =
    (Ok tt, after w [Console (Warn deprecation_message)]) /\
  exec (runTestSuites this) w =
    match exec (executeSuites this) w with
    | (Ok _, w1) => (Ok tt, after w1 [Console (Warn deprecation_message)])
    | (Fail e, w1) => (Fail e, w1)
    end /\
  requests (trace (snd (exec (runTestSuites this) w))) = requests (trace w) /\
  exec (dispatchReport unset report) w = exec (reportResults report) w /\
  exec (runTestSuites unset) w =
    match exec (executeSuites unset) w with
    | (Ok compiled, w1) => exec (reportResults compiled) w1
    | (Fail e, w1) => (Fail e, w1)
    end /\
  exists t, exec (reportResults report) w =
            (Ok tt, after w (Fetch (GET probe_url) :: t)).
Proof.
  intros this unset.
  split; [apply exec_dispatchReport|].
  split; [apply exec_runTestSuites|].
  split; [apply suppressed_requests; reflexivity|].
  split; [apply exec_dispatchReport|].
  split; [apply exec_runTestSuites|].
  apply reportResults_probes.
Qed.

(** C10: [null] is loosely equal to [undefined], so a runner built with
    [sendReport] equal to [null] skips the toggle branch: no warning,
    and the reporter is invoked and opens with the probe.  The other
    falsy values, [false], [0] and the empty string, log the warning
    and end the run without any request. *)
Theorem null_toggle_is_unset suites delay report w :
  (exec (dispatchReport (mkTestRunner suites delay VNull) report) w =
     exec (reportResults report) w /\
   exists t, exec (reportResults report) w =
             (Ok tt, after w (Fetch (GET probe_url) :: t))) /\
  (forall v, In v [VBool false; VNum 0; VStr ""] ->
     exec (dispatchReport (mkTestRunner suites delay v) report) w =
       (Ok tt, after w [Console (Warn deprecation_message)]) /\
     requests (trace (snd (exec (runTestSuites (mkTestRunner suites delay v)) w)))
       = requests (trace w)).
Proof.
  split.
  - split; [apply exec_dispatchReport|apply reportResults_probes].
  - intros v Hv. simpl in Hv.
    destruct Hv as [<-|[<-|[<-|[]]]];
      (split; [apply exec_dispatchReport|apply suppressed_requests; reflexivity]).
Qed.

(** C8: when the probe is answered with the body [cavy-cli running],
    the run issues, after the probe, exactly one more request: a POST
    to the delivery endpoint, declared as [application/json], whose
    body is the serialized report; parsing that body gives back the
    report, whose [results] and [errorCount] are the runner's and whose
    [duration] is the time between the start and stop dates. *)
Theorem report_posted_once this component report w1 response :
  exec (executeSuites this) (constructed component) = (Ok report, w1) ->
  suppressed this = false ->
  collector (trace (warned this w1)) (GET probe_url) = Ok response ->
  text response = Ok "cavy-cli running" ->
  exists w' payload,
    exec (runTestSuites this) (constructed component) = (Ok tt, w') /\
    requests (trace w') =
      [GET probe_url;
       mkRequest "http://127.0.0.1:8082/report" "POST"
                 [("Content-Type", "application/json")] (Some payload)] /\
    payload = JSON_stringify report /\
    JSON_parse payload = Some report /\
    results report = this_testResults w' /\
    errorCount report = this_errorCount w' /\
    exists w0, duration report =
               div1000 (Date_now (trace w0) -
                        Date_now (trace (constructed component))).
Proof.
  intros He Hs Hp Ht.
  rewrite exec_runTestSuites, He, Hs, exec_reportResults. cbv zeta.
  rewrite Hp. unfold acknowledged. rewrite Ht.
  change (String.eqb "cavy-cli running" "cavy-cli running") with true.
  cbv iota. rewrite exec_send.
  pose proof (executeSuites_outcome this (constructed component)) as O.
  rewrite He in O. destruct O as (rs & A & R & C).
  apply advanced_constructed in A. destruct A as (_ & _ & _ & Q & _).
  assert (Qw : requests (trace (warned this w1)) = []).
  { unfold warned. destruct (loose_neq_undefined _); auto.
    simpl. rewrite requests_app, Q. reflexivity. }
  assert (D : exists w0, duration report =
               div1000 (Date_now (trace w0) -
                        Date_now (trace (constructed component)))).
  { rewrite exec_executeSuites in He.
    destruct (exec (for_each _ _) _) as [[[]|e] w0]; inversion He.
    eexists; reflexivity. }
  assert (Fw : this_testResults (warned this w1) = this_testResults w1 /\
               this_errorCount (warned this w1) = this_errorCount w1).
  { unfold warned. destruct (loose_neq_undefined _); auto. }
  destruct Fw as (F1 & F2).
  cbn [after trace].
  destruct (collector _ (POST_report report)) as [r|e];
    rewrite after_after; eexists _, _;
    (split; [reflexivity|]); cbn [after trace this_testResults this_errorCount];
    rewrite requests_app, Qw, R, C, F1, F2; simpl;
    rewrite ?requests_console;
    (split; [reflexivity|]); (split; [reflexivity|]);
    (split; [apply JSON_roundtrip|]); auto.
Qed.

(** ** Calling without awaiting *)

Lemma exec_start_bind A B (p : Prog Host A) (q : A -> Prog Host B) w :
  exec (start (bind p q)) w =
  match exec (start p) w with
  | (Ok (Settled (Ok a)), w') => exec (start (q a)) w'
  | (Ok (Settled (Fail e)), w') => (Ok (Settled (Fail e)), w')
  | (Ok (Pending o k), w') => (Ok (Pending o (fun r => bind (k r) q)), w')
  | (Fail e, w') => (Fail e, w')
  end.
Proof.
  revert w; induction p as [a|e|o k IH]; intro w; simpl; auto.
  destruct (awaited o); simpl; auto.
  destruct (perform o w) as [r w']. apply IH.
Qed.

(** The first thing the loops wait for is the host clearing its state
    for the first case. *)
Lemma start_runScopes suites c rest :
  flat_cases suites = c :: rest ->
  exists k, start (runScopes suites) = Ret (Pending ClearAsync k).
Proof.
  unfold runScopes.
  induction suites as [|scope suites IH]; simpl; [discriminate|].
  destruct (testCases scope) as [|test tests]; simpl.
  - exact IH.
  - intros _. eexists. reflexivity.
Qed.

Lemma exec_startup this w :
  exec (startup this) w =
  (Ok tt, after w (if truthy (startDelay this)
                   then [Pause (startDelay this)] else [])).
Proof.
  unfold startup. destruct (truthy (startDelay this)); simpl.
  - reflexivity.
  - rewrite after_nil. reflexivity.
Qed.

(** C9: [run()] awaits the optional delay and nothing else.  It calls
    [runTestSuites()] and drops the promise, so it returns normally, in
    the world where that call has reached its first [await]; the rest
    of the suite execution is what settling the dropped promise would
    do.  When the plan has a first case, that world is the one where
    only the start line has been logged: the promise is pending on
    [clearAsync()], invoked for the first case and not yet settled; no
    test body has run, and no report has been compiled or sent. *)
Theorem run_returns_before_suites this w :
  let w0 := after w (if truthy (startDelay this)
                     then [Pause (startDelay this)] else []) in
  exists promise w',
    exec (start (runTestSuites this)) w0 = (Ok promise, w') /\
    exec (run this) w = (Ok tt, w') /\
    resume promise w' = exec (runTestSuites this) w0 /\
    forall c rest,
      flat_cases (testSuites this) = c :: rest ->
      w' = started w0 /\ exists k, promise = Pending ClearAsync k.
Proof.
  intro w0.
  destruct (start_resume (runTestSuites this) w0) as (promise & w' & Hs & Hr).
  exists promise, w'. split; [exact Hs|]. split; [|split; [exact Hr|]].
  - unfold run. rewrite exec_bind, exec_startup. fold w0.
    rewrite exec_bind, Hs. reflexivity.
  - intros c rest Hc.
    destruct (start_runScopes (testSuites this) Hc) as (k & Hk).
    revert Hs. unfold runTestSuites, executeSuites, console_log, call.
    rewrite exec_start_bind, exec_start_bind.
    cbn [perform_op start awaited exec perform].
    rewrite exec_start_bind.
    cbn [perform_op start awaited exec perform].
    rewrite exec_start_bind, Hk. cbn [exec].
    intro Hs. inversion Hs; subst.
    split; [|eexists; reflexivity].
    unfold started, after. simpl. rewrite <- app_assoc. reflexivity.
Qed.

(** ** One case, in full *)

Lemma exec_runTest scope test w :
  exec (runTest scope test) w =
  match clearAsync (this_component w) with
  | (Fail e, h1) =>
      (Fail e, mkWorld h1 (this_testResults w) (this_errorCount w)
                       (trace w ++ [ClearAsync])%list)
  | (Ok _, h1) =>
      match hook_outcome scope h1 with
      | (Fail e, h2) =>
          (Fail e, mkWorld h2 (this_testResults w) (this_errorCount w)
                           (trace w ++ ClearAsync :: hook_calls scope)%list)
      | (Ok _, h2) =>
          match reRender h2 with
          | (Fail e, h3) =>
              (Fail e, mkWorld h3 (this_testResults w) (this_errorCount w)
                               (trace w ++ ClearAsync :: hook_calls scope ++
                                [ReRender])%list)
          | (Ok _, h3) =>
              let r := match fst (f test h3) with
                       | Ok _ => pass_result test
                       | Fail e => fail_result test e
                       end in
              (Ok tt, mkWorld (snd (f test h3))
                              (this_testResults w ++ [r])%list
                              (if passed r then this_errorCount w
                               else this_errorCount w + 1)
                              (trace w ++ protocol (scope, test) ++
                               record_of r)%list)
          end
      end
  end.
Proof.
  unfold runTest, hook_outcome, protocol.
  unfold await, call, console_log, console_warn, perform_op.
  cbn [fst snd].
  destruct (beforeEach scope) as [g|] eqn:Hb; simpl;
    destruct (clearAsync (this_component w)) as [[[]|e1] h1]; simpl;
    try reflexivity.
  - destruct (g h1) as [[[]|e2] h2]; simpl.
    2:{ unfold hook_calls; rewrite Hb, <- app_assoc; reflexivity. }
    destruct (reRender h2) as [[[]|e3] h3]; simpl.
    2:{ unfold hook_calls; rewrite Hb, <- !app_assoc; reflexivity. }
    destruct (f test h3) as [[[]|e4] h4]; simpl;
      unfold hook_calls; rewrite Hb, <- !app_assoc; reflexivity.
  - destruct (reRender h1) as [[[]|e3] h3]; simpl.
    2:{ unfold hook_calls; rewrite Hb, <- !app_assoc; reflexivity. }
    destruct (f test h3) as [[[]|e4] h4]; simpl;
      unfold hook_calls; rewrite Hb, <- !app_assoc; reflexivity.
Qed.

(** X6: whenever [runTest] returns, it has performed, in this order
    and nothing else: [clearAsync], the hook when the scope has one,
    [reRender], the body, one console line carrying the very message
    it records (logged for a pass, warned for a failure), the push of
    the result and, for a failure, the increment of [errorCount]. *)
Theorem runTest_order_of_actions scope test w w' :
  exec (runTest scope test) w = (Ok tt, w') ->
  exists r,
    result_of (scope, test) r /\
    trace w' = (trace w ++ protocol (scope, test) ++ record_of r)%list /\
    this_testResults w' = (this_testResults w ++ [r])%list.
Proof.
  rewrite exec_runTest.
  destruct (clearAsync (this_component w)) as [[[]|e1] h1]; [|discriminate].
  destruct (hook_outcome scope h1) as [[[]|e2] h2]; [|discriminate].
  destruct (reRender h2) as [[[]|e3] h3]; [|discriminate].
  cbv zeta. intro H. inversion H; subst; clear H.
  eexists. split; [|split; reflexivity].
  unfold result_of. cbn [snd].
  destruct (fst (f test h3)); eauto.
Qed.

(** X8: [clearAsync] and [reRender] are called outside the [try]
    block.  When one of them throws, [runTest] throws the same error
    at that point: the later steps of the case are not performed,
    nothing is recorded, and the error leaves the loops, so no later
    case runs. *)
Theorem host_failure_propagates scope test w e :
  (forall h1,
      clearAsync (this_component w) = (Fail e, h1) ->
      let w' := mkWorld h1 (this_testResults w) (this_errorCount w)
                        (trace w ++ [ClearAsync])%list in
      exec (runTest scope test) w = (Fail e, w') /\
      forall tests later,
        exec (for_each (test :: tests) (fun t => runTest scope t) ;;
              runScopes later) w = (Fail e, w')) /\
  (forall h1 h2 h3,
      clearAsync (this_component w) = (Ok tt, h1) ->
      hook_outcome scope h1 = (Ok tt, h2) ->
      reRender h2 = (Fail e, h3) ->
      let w' := mkWorld h3 (this_testResults w) (this_errorCount w)
                        (trace w ++ ClearAsync :: hook_calls scope ++
                         [ReRender])%list in
      exec (runTest scope test) w = (Fail e, w') /\
      forall tests later,
        exec (for_each (test :: tests) (fun t => runTest scope t) ;;
              runScopes later) w = (Fail e, w')).
Proof.
  split.
  - intros h1 Hc w'.
    assert (E : exec (runTest scope test) w = (Fail e, w'))
      by (rewrite exec_runTest, Hc; reflexivity).
    split; [exact E|]. intros tests later. cbn [for_each].
    rewrite !exec_bind, E. reflexivity.
  - intros h1 h2 h3 Hc Hh Hr w'.
    assert (E : exec (runTest scope test) w = (Fail e, w'))
      by (rewrite exec_runTest, Hc, Hh, Hr; reflexivity).
    split; [exact E|]. intros tests later. cbn [for_each].
    rewrite !exec_bind, E. reflexivity.
Qed.

(** ** Delivery *)

Lemma prefix_occurs (pat str : string) :
  prefix pat str = true <-> exists post, str = pat ++ post.
Proof.
  revert str; induction pat as [|a pat IH]; intros [|b str]; simpl.
  - split; [intros _; eexists; reflexivity|reflexivity].
  - split; [intros _; eexists; reflexivity|reflexivity].
  - split; [discriminate|]. intros (post & H). discriminate H.
  - destruct (ascii_dec a b) as [->|Hab].
    + rewrite IH. split; intros (post & H); exists post.
      * rewrite H. reflexivity.
      * inversion H. reflexivity.
    + split; [discriminate|]. intros (post & H). inversion H. congruence.
Qed.

Lemma index_occurs (pat str : string) :
  (exists m, String.index 0 pat str = Some m) <-> occurs_in pat str.
Proof.
  unfold occurs_in. split.
  - intros (m & H). revert m H.
    induction str as [|b str IH]; intros m H; cbn [String.index] in H.
    + destruct pat; [|discriminate H]. exists "", "". reflexivity.
    + destruct (prefix pat (String b str)) eqn:Hp.
      * apply prefix_occurs in Hp. destruct Hp as (post & Hp).
        exists "", post. exact Hp.
      * destruct (String.index 0 pat str) as [n|]; [|discriminate H].
        destruct (IH n eq_refl) as (pre & post & ->).
        exists (String b pre), post. reflexivity.
  - intros (pre & post & ->).
    induction pre as [|b pre IH].
    + cbn [append].
      assert (Hp : prefix pat (pat ++ post) = true)
        by (apply prefix_occurs; eauto).
      destruct (pat ++ post) as [|c s] eqn:Hs.
      * destruct pat; [|discriminate Hs]. exists 0. reflexivity.
      * cbn [String.index]. rewrite Hp. eauto.
    + cbn [append String.index].
      destruct IH as (n & ->).
      destruct (prefix pat (String b (pre ++ pat ++ post))); eauto.
Qed.

Lemma matches_occurs (pat str : string) :
  matches pat str = true <-> occurs_in pat str.
Proof.
  rewrite <- index_occurs. unfold matches.
  destruct (String.index 0 pat str) as [m|]; split; eauto;
    try discriminate.
  intros (m & H). discriminate H.
Qed.

Lemma console_console (ls : list LogLine) :
  console (map (@Console Host) ls) = ls.
Proof. induction ls as [|l ls IH]; simpl; [|rewrite IH]; reflexivity. Qed.

(** X2: [handleError] never throws and writes one console group of
    three lines.  When the error message contains
    [Network request failed], anywhere, the group says that the report
    server is not running at the url and adds the cavy-cli hint; for
    any other message the group is [Error sending test results] with
    the raw message as a warning. *)
Theorem handleError_classifies error url w :
  exists lines,
    exec (handleError error url) w = (Ok tt, after w (map Console lines)) /\
    (occurs_in "Network request failed" (message error) ->
     lines =
       [Group ("Cavy test report server is not running at " ++ url);
        Log "If you are using cavy-cli, maybe it's not set up correctly or not reachable from this device?";
        GroupEnd]) /\
    (~ occurs_in "Network request failed" (message error) ->
     lines =
       [Group "Error sending test results"; Warn (message error); GroupEnd]).
Proof.
  exists (handleError_lines error url).
  split; [apply exec_handleError|].
  unfold handleError_lines.
  destruct (matches "Network request failed" (message error)) eqn:Hm.
  - split; [reflexivity|].
    intro Hn. exfalso. apply Hn. apply matches_occurs. exact Hm.
  - split; [|reflexivity].
    intro Ho. apply matches_occurs in Ho. congruence.
Qed.

(** X1: [send] never throws.  It issues exactly one request, the POST
    of the report, and touches neither the host nor the runner's
    results; when the request succeeds it logs the confirmation, and
    when it fails it logs the group of [handleError] for the delivery
    url instead. *)
Theorem send_never_throws report w :
  exists t,
    exec (send report) w = (Ok tt, after w t) /\
    requests t = [POST_report report] /\
    console t =
      match collector (trace w) (POST_report report) with
      | Ok _ => [Log "Cavy test report successfully sent to cavy-cli"]
      | Fail e => handleError_lines e "http://127.0.0.1:8082/report"
      end.
Proof.
  rewrite exec_send.
  destruct (collector (trace w) (POST_report report)) as [response|e];
    eexists; (split; [reflexivity|]).
  - split; reflexivity.
  - cbn [requests console].
    rewrite requests_console, console_console. split; reflexivity.
Qed.

(** X3: an explicit truthy [sendReport] ([true], a non-zero number, a
    non-empty string, an object) does not force delivery: the
    deprecation warning is logged first and the reporter is then
    invoked as usual, its probe deciding. *)
Theorem truthy_toggle_warns_and_reports v suites delay report w :
  truthy v = true ->
  exec (dispatchReport (mkTestRunner suites delay v) report) w =
  exec (reportResults report)
       (after w [Console (Warn deprecation_message)]).
Proof.
  intro Hv. rewrite exec_dispatchReport.
  unfold suppressed, warned. cbn [shouldSendReport]. rewrite Hv.
  destruct v; try discriminate; reflexivity.
Qed.

End Runner.

(** ** The payload reads back *)

Module JSONFacts.
Import Decimal DecimalString JSON.

Lemma append_assoc (a b c : string) : ((a ++ b) ++ c = a ++ (b ++ c))%string.
Proof. induction a as [|x a IH]; simpl; [reflexivity|rewrite IH; reflexivity]. Qed.

Lemma length_append (a b : string) :
  String.length (a ++ b) = String.length a + String.length b.
Proof. induction a as [|x a IH]; simpl; [reflexivity|rewrite IH; reflexivity]. Qed.

Lemma expect_append lit rest : expect lit (lit ++ rest) = Some rest.
Proof.
  induction lit as [|c lit IH]; simpl; [reflexivity|].
  rewrite Ascii.eqb_refl. exact IH.
Qed.

Lemma read_string_escape_char c tail str rest :
  read_string tail = Some (str, rest) ->
  read_string (escape_char c ++ tail) = Some (String c str, rest).
Proof.
  intro H.
  destruct c as [[] [] [] [] [] [] [] []];
    match goal with
    | |- context [escape_char ?c] =>
        let v := eval vm_compute in (escape_char c) in
        change (escape_char c) with v
    end;
    simpl; rewrite H; reflexivity.
Qed.

Lemma read_string_escape s rest :
  read_string (escape s ++ String dquote rest) = Some (s, rest).
Proof.
  induction s as [|c s IH]; [reflexivity|].
  cbn [escape]. rewrite append_assoc.
  apply read_string_escape_char, IH.
Qed.

Lemma read_quoted_quote s rest : read_quoted (quote s ++ rest) = Some (s, rest).
Proof.
  unfold quote. cbn. rewrite append_assoc. apply read_string_escape.
Qed.

Lemma read_digits_uint u rest :
  no_digit rest ->
  read_digits (NilEmpty.string_of_uint u ++ rest) = (u, rest).
Proof.
  intro H. induction u; simpl; try (rewrite IHu; reflexivity).
  destruct rest as [|c rest]; simpl in *; [reflexivity|].
  rewrite H. reflexivity.
Qed.

Lemma to_uint_not_Nil n : N.to_uint n <> Nil.
Proof.
  intro H. pose proof (DecimalN.Unsigned.of_to n) as E.
  rewrite H in E. simpl in E. subst n. discriminate.
Qed.

Lemma read_N_to_uint n rest :
  no_digit rest ->
  read_N (NilZero.string_of_uint (N.to_uint n) ++ rest) = Some (n, rest).
Proof.
  intro H. unfold read_N, NilZero.string_of_uint.
  pose proof (to_uint_not_Nil n) as Hn.
  pose proof (DecimalN.Unsigned.of_to n) as E.
  destruct (N.to_uint n) as [|u|u|u|u|u|u|u|u|u|u] eqn:Hu;
    try congruence;
    rewrite read_digits_uint by exact H; rewrite E; reflexivity.
Qed.

Lemma read_nat_of_nat n rest :
  no_digit rest -> read_nat (of_nat n ++ rest) = Some (n, rest).
Proof.
  intro H. unfold read_nat, of_nat. rewrite read_N_to_uint by exact H.
  rewrite Nat2N.id. reflexivity.
Qed.

(** Digits only, then the rest. *)
Lemma read_digits_append ds u rest :
  read_digits ds = (u, "") -> no_digit rest ->
  read_digits (ds ++ rest) = (u, rest).
Proof.
  revert u. induction ds as [|c ds IH]; intros u H Hr; simpl in *.
  - inversion H; subst. destruct rest as [|c rest]; simpl in *; [reflexivity|].
    rewrite Hr. reflexivity.
  - destruct (digit_of c) as [d|]; [|discriminate].
    destruct (read_digits ds) as [u' r'] eqn:Hd.
    inversion H; subst. rewrite (IH u' eq_refl Hr). reflexivity.
Qed.

Lemma fraction_reads_all :
  forallb fraction_reads (seq 1 999) = true.
Proof. vm_compute. reflexivity. Qed.

Lemma read_fraction_fraction frac rest :
  (0 < frac < 1000)%Z -> no_digit rest ->
  read_fraction (fraction frac ++ rest) = Some (frac, rest).
Proof.
  intros Hf Hr.
  pose proof fraction_reads_all as A. rewrite forallb_forall in A.
  specialize (A (Z.to_nat frac)).
  assert (Hin : In (Z.to_nat frac) (seq 1 999)) by (apply in_seq; lia).
  specialize (A Hin). unfold fraction_reads in A.
  rewrite Z2Nat.id in A by lia.
  unfold read_fraction in *.
  destruct (read_digits (fraction frac)) as [u [|c r]] eqn:Hd; [|discriminate].
  rewrite (@read_digits_append _ _ _ Hd Hr).
  destruct (nb_digits u) as [|[|[|[|k]]]]; try discriminate;
    apply Z.eqb_eq in A; rewrite A; reflexivity.
Qed.

Lemma ends_number_no_digit rest : ends_number rest -> no_digit rest.
Proof. destruct rest; simpl; tauto. Qed.

Lemma read_unsigned_thousandths a rest :
  (0 <= a)%Z -> ends_number rest ->
  read_unsigned
    (NilZero.string_of_uint (N.to_uint (Z.to_N (a / 1000))) ++
     (if (a mod 1000 =? 0)%Z then "" else "." ++ fraction (a mod 1000)) ++
     rest) = Some (a, rest).
Proof.
  intros Ha Hr. unfold read_unsigned.
  pose proof (Z.div_mod a 1000 ltac:(lia)) as E.
  pose proof (Z.mod_pos_bound a 1000 ltac:(lia)) as B.
  assert (Hq : (0 <= a / 1000)%Z) by (apply Z.div_pos; lia).
  destruct (a mod 1000 =? 0)%Z eqn:Hm.
  - apply Z.eqb_eq in Hm. cbn [append].
    rewrite read_N_to_uint by (apply ends_number_no_digit; exact Hr).
    rewrite Z2N.id by exact Hq.
    replace (a / 1000 * 1000)%Z with a by lia.
    destruct rest as [|c rest]; [reflexivity|].
    destruct Hr as [_ Hc].
    destruct c as [[] [] [] [] [] [] [] []]; try reflexivity.
    exfalso; apply Hc; reflexivity.
  - apply Z.eqb_neq in Hm. rewrite append_assoc. cbn [append].
    rewrite read_N_to_uint by reflexivity.
    rewrite read_fraction_fraction
      by (try lia; apply ends_number_no_digit; exact Hr).
    rewrite Z2N.id by exact Hq.
    replace (a / 1000 * 1000 + a mod 1000)%Z with a by lia.
    reflexivity.
Qed.

Lemma no_sign_before_digits n tail :
  expect "-" (NilZero.string_of_uint (N.to_uint n) ++ tail) = None.
Proof.
  unfold NilZero.string_of_uint.
  destruct (N.to_uint n); reflexivity.
Qed.

Lemma read_seconds_of_seconds d rest :
  ends_number rest ->
  read_seconds (of_seconds d ++ rest) = Some (d, rest).
Proof.
  intro Hr. destruct d as [z]. unfold of_seconds, read_seconds.
  cbn [thousandths].
  pose proof (@read_unsigned_thousandths (Z.abs z) rest (Z.abs_nonneg z) Hr) as U.
  rewrite !append_assoc.
  destruct (z <? 0)%Z eqn:Hz.
  - apply Z.ltb_lt in Hz. rewrite expect_append, U.
    rewrite Z.abs_neq by lia. rewrite Z.opp_involutive. reflexivity.
  - apply Z.ltb_ge in Hz. cbn [append] in U |- *.
    rewrite no_sign_before_digits, U.
    rewrite Z.abs_eq by lia. reflexivity.
Qed.

Lemma read_bool_of_bool b rest : read_bool (of_bool b ++ rest) = Some (b, rest).
Proof. destruct b; reflexivity. Qed.

Lemma read_result_of_result r rest :
  read_result (of_result r ++ rest) = Some (r, rest).
Proof.
  destruct r as [m p]. unfold read_result, of_result. cbn [msg passed].
  rewrite !append_assoc.
  rewrite <- (append_assoc "{" (key "message")).
  rewrite expect_append, read_quoted_quote.
  rewrite <- (append_assoc "," (key "passed")).
  rewrite expect_append, read_bool_of_bool.
  reflexivity.
Qed.

Lemma read_results_tail_of rs rest fuel :
  List.length rs < fuel ->
  read_results_tail fuel (of_results_tail rs ++ rest) = Some (rs, rest).
Proof.
  revert fuel. induction rs as [|r rs IH]; intros [|fuel] H; simpl in H; try lia.
  - reflexivity.
  - cbn [of_results_tail]. rewrite !append_assoc.
    cbn [append read_results_tail].
    rewrite read_result_of_result, IH by lia. reflexivity.
Qed.

Lemma length_of_results_tail rs rest :
  List.length rs < String.length (of_results_tail rs ++ rest).
Proof.
  induction rs as [|r rs IH]; simpl; [lia|].
  rewrite !append_assoc, !length_append in *. lia.
Qed.

Lemma read_results_of_results rs rest :
  read_results (of_results rs ++ rest) = Some (rs, rest).
Proof.
  destruct rs as [|r rs]; [reflexivity|].
  unfold of_results, read_results. rewrite !append_assoc.
  cbn [append].
  assert (E : forall tail, exists t, of_result r ++ tail = String "{" t).
  { intro tail. unfold of_result. cbn [append]. eexists. reflexivity. }
  destruct (E (of_results_tail rs ++ rest)) as (t & Et).
  pose proof (read_result_of_result r (of_results_tail rs ++ rest)) as R.
  rewrite Et in *. rewrite R.
  rewrite read_results_tail_of by apply length_of_results_tail.
  reflexivity.
Qed.

(** Parsing the payload gives back the report. *)
Lemma parse_stringify report : parse (stringify report) = Some report.
Proof.
  destruct report as [rs n d]. unfold parse, stringify.
  cbn [results errorCount duration].
  rewrite <- (append_assoc "{" (key "results")).
  rewrite expect_append, read_results_of_results.
  rewrite <- (append_assoc "," (key "errorCount")).
  rewrite expect_append, read_nat_of_nat by reflexivity.
  rewrite <- (append_assoc "," (key "duration")).
  rewrite expect_append.
  rewrite read_seconds_of_seconds by (split; [reflexivity|discriminate]).
  reflexivity.
Qed.

End JSONFacts.

(** ** The properties at concrete inputs *)

Local Abbreviation ex_exec :=
  (exec Example.clearAsync Example.reRender Example.Date_now Example.listening).
Local Abbreviation ex_executeSuites :=
  (executeSuites Example.Date_toString JSON.of_seconds).
Local Abbreviation ex_runTestSuites :=
  (runTestSuites Example.Date_toString JSON.of_seconds JSON.stringify).
Local Abbreviation ex_run :=
  (run Example.Date_toString JSON.of_seconds JSON.stringify).
Local Abbreviation ex_started :=
  (started Example.Date_now Example.Date_toString).
Local Abbreviation ex_plan :=
  (mkTestRunner [Example.S1; Example.S2] VUndefined VUndefined).


(** C2 as the specification words it fails: a hook that throws does
    not leave a failed result behind. *)
Lemma hook_failure_not_recorded :
  ~ hook_failure_recorded
      Example.clearAsync Example.reRender Example.Date_now Example.listening
      Example.broken Example.caseB (constructed 5).
Proof.
  intro H.
  destruct (H (Example.fails "setup failed") 0 (mkError "setup failed") 0
              eq_refl eq_refl eq_refl) as (w' & E & _).
  vm_compute in E. discriminate E.
Qed.

Lemma hook_failure_propagates_witness :
  let w := ex_started (constructed 5) in
  let w' := mkWorld 0 [] 0
              (trace w ++ [ClearAsync;
                           CallBeforeEach Example.broken
                                          (Example.fails "setup failed")])%list in
  ex_exec (runTest Example.broken Example.caseB) w
    = (Fail (mkError "setup failed"), w') /\
  ex_exec (ex_runTestSuites
             (mkTestRunner [Example.broken; Example.S2] VUndefined VUndefined))
          (constructed 5)
    = (Fail (mkError "setup failed"), w').
Proof.
  intros w w'.
  destruct (hook_failure_propagates
              Example.clearAsync Example.reRender Example.Date_now
              Example.listening Example.Date_toString JSON.of_seconds
              JSON.stringify Example.broken Example.caseB w
              (g := Example.fails "setup failed") (h1 := 0)
              (e := mkError "setup failed") (h2 := 0)
              eq_refl eq_refl eq_refl) as (One & _ & Run).
  split; [exact One|].
  apply (Run (mkTestRunner [Example.broken; Example.S2] VUndefined VUndefined)
             (constructed 5) []
             [(Example.broken, Example.caseC); (Example.S2, Example.caseC)]);
    reflexivity.
Defined.

Lemma errorCount_counts_failures_witness :
  exists report w',
    this_errorCount (constructed 5) = failures (this_testResults (constructed 5)) /\
    ex_exec (ex_executeSuites ex_plan) (constructed 5) = (Ok report, w') /\
    errorCount report = 1 /\
    errorCount report = failures (results report).
Proof.
  eexists _, _. split; [reflexivity|].
  split; [vm_compute; reflexivity|]. split; [reflexivity|].
  eapply (errorCount_counts_failures
            Example.clearAsync Example.reRender Example.Date_now
            Example.listening Example.Date_toString JSON.of_seconds
            ex_plan (constructed 5)).
  - reflexivity.
  - vm_compute; reflexivity.
Defined.

Lemma results_length_total_witness :
  exists report w',
    ex_exec (ex_executeSuites ex_plan) (constructed 5) = (Ok report, w') /\
    List.length (results report) = 3.
Proof.
  apply (proj2 (results_length_total
                  Example.clearAsync Example.reRender Example.Date_now
                  Example.listening Example.Date_toString JSON.of_seconds
                  ex_plan 5)).
  - intro h; reflexivity.
  - intro h; reflexivity.
  - intros scope g [<-|[<-|[]]] H; discriminate H.
Defined.

Lemma results_in_input_order_witness :
  exists report w',
    ex_exec (ex_executeSuites ex_plan) (constructed 5) = (Ok report, w') /\
    Forall2 (@result_of nat)
            [(Example.S1, Example.caseA); (Example.S1, Example.caseB);
             (Example.S2, Example.caseC)]
            (results report) /\
    case_events (trace w') =
      one_by_one [(Example.S1, Example.caseA); (Example.S1, Example.caseB);
                  (Example.S2, Example.caseC)]
                 (results report).
Proof.
  eexists _, _. split; [vm_compute; reflexivity|].
  eapply (results_in_input_order
            Example.clearAsync Example.reRender Example.Date_now
            Example.listening Example.Date_toString JSON.of_seconds
            ex_plan 5).
  vm_compute; reflexivity.
Defined.

Lemma report_posted_once_witness :
  exists report w1 response,
    ex_exec (ex_executeSuites ex_plan) (constructed 5) = (Ok report, w1) /\
    suppressed ex_plan = false /\
    Example.listening (trace (warned ex_plan w1)) (GET probe_url) = Ok response /\
    text response = Ok "cavy-cli running" /\
    exists w' payload,
      ex_exec (ex_runTestSuites ex_plan) (constructed 5) = (Ok tt, w') /\
      requests (trace w') =
        [GET probe_url;
         mkRequest "http://127.0.0.1:8082/report" "POST"
                   [("Content-Type", "application/json")] (Some payload)] /\
      payload = JSON.stringify report /\
      JSON.parse payload = Some report /\
      results report = this_testResults w' /\
      errorCount report = this_errorCount w' /\
      exists w0, duration report =
                 div1000 (Example.Date_now (trace w0) -
                          Example.Date_now (trace (constructed 5))).
Proof.
  eexists _, _, _. split; [vm_compute; reflexivity|].
  split; [reflexivity|]. split; [reflexivity|]. split; [reflexivity|].
  eapply (report_posted_once
            Example.clearAsync Example.reRender Example.Date_now
            Example.listening Example.Date_toString JSON.of_seconds
            JSON.stringify JSON.parse JSONFacts.parse_stringify ex_plan 5).
  - vm_compute; reflexivity.
  - reflexivity.
  - reflexivity.
  - reflexivity.
Defined.

Lemma run_returns_before_suites_witness :
  let this := mkTestRunner [Example.S1; Example.S2] (VNum 500) VUndefined in
  let w0 := after (constructed 5) [Pause (VNum 500)] in
  exists promise k,
    ex_exec (start (ex_runTestSuites this)) w0 = (Ok promise, ex_started w0) /\
    ex_exec (ex_run this) (constructed 5) = (Ok tt, ex_started w0) /\
    promise = Pending ClearAsync k /\
    this_testResults (ex_started w0) = [] /\
    case_events (trace (ex_started w0)) = [] /\
    requests (trace (ex_started w0)) = [].
Proof.
  intros this w0.
  destruct (run_returns_before_suites
              Example.clearAsync Example.reRender Example.Date_now
              Example.listening Example.Date_toString JSON.of_seconds
              JSON.stringify this (constructed 5))
    as (promise & w' & Hs & Hr & _ & First).
  destruct (First (Example.S1, Example.caseA)
                  [(Example.S1, Example.caseB); (Example.S2, Example.caseC)]
                  eq_refl) as (Hw & k & Hk).
  exists promise, k.
  change (after (constructed 5)
                (if truthy (startDelay this) then [Pause (startDelay this)]
                 else [])) with w0 in *.
  rewrite Hw in Hs, Hr.
  split; [exact Hs|]. split; [exact Hr|]. split; [exact Hk|].
  repeat split.
Defined.

Lemma null_toggle_is_unset_witness :
  In (VNum 0) [VBool false; VNum 0; VStr ""] /\
  ex_exec (dispatchReport JSON.stringify
             (mkTestRunner [Example.S1] VUndefined (VNum 0))
             (mkReport [] 0 (div1000 0)))
          (constructed 5)
    = (Ok tt, after (constructed 5) [Console (Warn deprecation_message)]) /\
  requests (trace (snd (ex_exec
             (ex_runTestSuites (mkTestRunner [Example.S1] VUndefined (VNum 0)))
             (constructed 5)))) = [].
Proof.
  assert (Hin : In (VNum 0) [VBool false; VNum 0; VStr ""])
    by (right; left; reflexivity).
  split; [exact Hin|].
  apply (proj2 (null_toggle_is_unset
                  Example.clearAsync Example.reRender Example.Date_now
                  Example.listening Example.Date_toString JSON.of_seconds
                  JSON.stringify [Example.S1] VUndefined
                  (mkReport [] 0 (div1000 0)) (constructed 5))
               (VNum 0) Hin).
Defined.

(** With no collector listening, the probe fails, one notice is logged
    and nothing is delivered. *)
Example probe_fails_when_absent :
  let out := exec Example.clearAsync Example.reRender Example.Date_now
                  Example.absent
                  (@reportResults nat JSON.stringify (mkReport [] 0 (div1000 0)))
                  (constructed 5) in
  fst out = Ok tt /\
  requests (trace (snd out)) = [GET probe_url] /\
  console (trace (snd out)) =
    [Log "Skipping sending test report to cavy-cli - Network request failed."].
Proof. vm_compute. repeat split. Qed.

(** With the collector listening, the three-case plan is run, probed
    and delivered; the log shows the cases in order. *)
Example plan_is_run_and_delivered :
  let out := ex_exec (ex_runTestSuites ex_plan) (constructed 5) in
  fst out = Ok tt /\
  map method (requests (trace (snd out))) = ["GET"; "POST"] /\
  map url (requests (trace (snd out))) =
    ["http://127.0.0.1:8082/"; "http://127.0.0.1:8082/report"] /\
  console (trace (snd out)) =
    [Log "Cavy test suite started at T+1.";
     Warn ("A  ❌" ++ nl ++ "   expected 1 to be 2");
     Log "B  ✅";
     Log "C  ✅";
     Log "Cavy test suite stopped at T+5.5, duration: 4.5 seconds.";
     Log "Cavy test report successfully sent to cavy-cli"].
Proof. vm_compute. repeat split. Qed.

(** With [sendReport] explicitly [false], the same plan ends on the
    deprecation warning, without a request. *)
Example plan_is_not_reported_when_false :
  let out := ex_exec (ex_runTestSuites
                        (mkTestRunner [Example.S1; Example.S2]
                                      VUndefined (VBool false)))
                     (constructed 5) in
  fst out = Ok tt /\
  requests (trace (snd out)) = [] /\
  last (console (trace (snd out))) GroupEnd = Warn deprecation_message.
Proof. vm_compute. repeat split. Qed.

(** ** Further properties at concrete inputs *)

Lemma runTest_order_of_actions_witness :
  exists w',
    ex_exec (runTest Example.S1 Example.caseA) (constructed 5) = (Ok tt, w') /\
    exists r,
      result_of (Example.S1, Example.caseA) r /\
      trace w' = (protocol (Example.S1, Example.caseA) ++ record_of nat r)%list /\
      this_testResults w' = [r].
Proof.
  eexists. split; [vm_compute; reflexivity|].
  eapply (runTest_order_of_actions
            Example.clearAsync Example.reRender Example.Date_now
            Example.listening Example.S1 Example.caseA (constructed 5)).
  vm_compute; reflexivity.
Defined.

Lemma host_failure_propagates_witness :
  (exec Faulty.clearAsync Example.reRender Example.Date_now Example.listening
        (runTest Example.S1 Example.caseB) (constructed 5)
   = (Fail (mkError "storage unavailable"), mkWorld 5 [] 0 [ClearAsync])) /\
  (exec Example.clearAsync Faulty.reRender Example.Date_now Example.listening
        (runTest Example.S1 Example.caseB) (constructed 5)
   = (Fail (mkError "cannot render"),
      mkWorld 0 [] 0 [ClearAsync; ReRender])).
Proof.
  split.
  - apply (proj1 (host_failure_propagates
                    Faulty.clearAsync Example.reRender Example.Date_now
                    Example.listening Example.S1 Example.caseB
                    (constructed 5) (mkError "storage unavailable"))
                 5 eq_refl).
  - apply (proj2 (host_failure_propagates
                    Example.clearAsync Faulty.reRender Example.Date_now
                    Example.listening Example.S1 Example.caseB
                    (constructed 5) (mkError "cannot render"))
                 0 0 0 eq_refl eq_refl eq_refl).
Defined.

Lemma handleError_classifies_witness :
  (exists lines,
      ex_exec (@handleError nat (mkError "TypeError: Network request failed")
                           "http://127.0.0.1:8082/report") (constructed 5)
      = (Ok tt, after (constructed 5) (map Console lines)) /\
      lines =
        [Group "Cavy test report server is not running at http://127.0.0.1:8082/report";
         Log "If you are using cavy-cli, maybe it's not set up correctly or not reachable from this device?";
         GroupEnd]) /\
  (exists lines,
      ex_exec (@handleError nat (mkError "timeout")
                           "http://127.0.0.1:8082/report") (constructed 5)
      = (Ok tt, after (constructed 5) (map Console lines)) /\
      lines =
        [Group "Error sending test results"; Warn "timeout"; GroupEnd]).
Proof.
  split.
  - destruct (handleError_classifies
                Example.clearAsync Example.reRender Example.Date_now
                Example.listening
                (mkError "TypeError: Network request failed")
                "http://127.0.0.1:8082/report" (constructed 5))
      as (lines & E & Yes & _).
    exists lines. split; [exact E|].
    apply Yes. exists "TypeError: ", "". reflexivity.
  - destruct (handleError_classifies
                Example.clearAsync Example.reRender Example.Date_now
                Example.listening (mkError "timeout")
                "http://127.0.0.1:8082/report" (constructed 5))
      as (lines & E & _ & No).
    exists lines. split; [exact E|].
    apply No. intro H. apply matches_occurs in H. discriminate H.
Defined.

Lemma truthy_toggle_warns_and_reports_witness :
  truthy (VBool true) = true /\
  ex_exec (dispatchReport JSON.stringify
             (mkTestRunner [Example.S1] VUndefined (VBool true))
             (mkReport [] 0 (div1000 0))) (constructed 5) =
  ex_exec (@reportResults nat JSON.stringify (mkReport [] 0 (div1000 0)))
          (after (constructed 5) [Console (Warn deprecation_message)]).
Proof.
  split; [reflexivity|].
  apply (truthy_toggle_warns_and_reports
           Example.clearAsync Example.reRender Example.Date_now
           Example.listening JSON.stringify (VBool true) [Example.S1]
           VUndefined (mkReport [] 0 (div1000 0)) (constructed 5)).
  reflexivity.
Defined.
